(** * Gemini Image Stylizer: the generation client and the interaction controller

    A shallow embedding of [src/services/geminiService.ts] (the generation
    client) and of the stateful part of [src/App.tsx] (the controller: the six
    [useState] cells, the event handlers and the output panel's choice of
    view), with the properties of the request lifecycle proved over it.

    Platform behaviour that the source only calls (the [FileReader], the
    process environment, the [generateContent] endpoint, the browser's
    object-URL store) is an explicit environment or store; promises are
    values of a small monad that records the effects a call performs and
    ends in either a rejection or a result. *)

From stdpp Require Import base list strings gmap.
From Stdlib Require Import Ascii.

(** ** JavaScript values the code relies on *)

Module Js.

(** Truthiness of a string: only the empty string is falsy. *)
Definition truthy (s : string) : bool :=
  match s with
  | EmptyString => false
  | String _ _ => true
  end.

(** Truthiness of a [string | null | undefined]. *)
Definition truthy_opt (o : option string) : bool :=
  match o with
  | Some s => truthy s
  | None => false
  end.

(** [s.split(sep)] for a one-character separator: the segments between the
    separators, in order; a string without separator is its only segment. *)
Fixpoint split (sep : ascii) (s : string) : list string :=
  match s with
  | EmptyString => [EmptyString]
  | String c rest =>
      if Ascii.eqb c sep then EmptyString :: split sep rest
      else match split sep rest with
           | seg :: segs => String c seg :: segs
           | [] => [String c EmptyString]
           end
  end.

(** What a [throw] or a promise rejection carries in this program: an
    [Error] object with its message, or the [ProgressEvent] that
    [FileReader.onerror] passes on (it has no [message] property). *)
Inductive Thrown : Type :=
  | Error (message : string)
  | ProgressEvent.

(** [e.message] read off a caught value; [undefined] is [None]. *)
Definition message (e : Thrown) : option string :=
  match e with
  | Error m => Some m
  | ProgressEvent => None
  end.

(** [a || b] on strings, with [a] possibly undefined. *)
Definition or_else (a : option string) (b : string) : string :=
  match a with
  | Some s => if truthy s then s else b
  | None => b
  end.

(** A template literal's rendering of a [string | undefined]. *)
Definition template (v : option string) : string :=
  match v with
  | Some s => s
  | None => "undefined"
  end.

End Js.

(** ** The generation client, [services/geminiService.ts] *)

Module GeminiService.
Import Js.

(** A browser [File]: the code reads its [type]; its bytes are only ever
    seen through the [FileReader]. *)
Record File : Type := { name : string; type : string }.

(** [inlineData] of a content part. Both fields are optional in the
    library's declaration, and the code tests neither: a part whose
    [inlineData] has no [data] makes [editImageWithPrompt] resolve with
    [undefined], which is [None] here. *)
Record Blob : Type := { data : option string; mimeType : option string }.

(** A content part, of a request or of a response. *)
Record Part : Type := { inlineData : option Blob; text : option string }.

Record Content : Type := { parts : option (list Part) }.
Record Candidate : Type := { content : option Content }.
Record GenerateContentResponse : Type := { candidates : option (list Candidate) }.

Inductive Modality : Type := IMAGE | TEXT | AUDIO.

Record GenerateContentParameters : Type := {
  model : string;
  contents : list Part;
  responseModalities : list Modality
}.

(** How a [FileReader.readAsDataURL] ends: [onload] with [reader.result], or
    [onerror]. *)
Inductive ReadOutcome : Type :=
  | Loaded (result : string)
  | ReadFailed.

(** How the [generateContent] call ends. *)
Inductive BackendOutcome : Type :=
  | Fulfilled (response : GenerateContentResponse)
  | Rejected (reason : Thrown).

(** The platform around one call of the client. *)
Record Env : Type := {
  API_KEY : option string;
  readAsDataURL : File -> ReadOutcome;
  generateContent : GenerateContentParameters -> BackendOutcome
}.

(** Effects a call performs, in order. *)
Inductive Event : Type :=
  | EvReadAsDataURL (file : File)
  | EvGenerateContent (request : GenerateContentParameters)
  | EvConsoleError (label : option string) (value : Thrown).

(** A settled promise: the effects performed, then a rejection or a value. *)
Definition Async (A : Type) : Type := list Event * (Thrown + A).

Definition resolve {A} (a : A) : Async A := ([], inr a).
Definition reject {A} (e : Thrown) : Async A := ([], inl e).
Definition emit (ev : Event) : Async unit := ([ev], inr tt).

Definition await {A B} (m : Async A) (k : A -> Async B) : Async B :=
  match m with
  | (evs, inl e) => (evs, inl e)
  | (evs, inr a) => let '(evs', r) := k a in (evs ++ evs', r)
  end.

Definition try_catch {A} (body : Async A) (handler : Thrown -> Async A) : Async A :=
  match body with
  | (evs, inl e) => let '(evs', r) := handler e in (evs ++ evs', r)
  | (evs, inr a) => (evs, inr a)
  end.

Notation "'let!' x ':=' m 'in' k" := (await m (fun x => k))
  (at level 10, x pattern, m at level 100, k at level 200, only parsing).
Notation "m ';;' k" := (await m (fun _ => k))
  (at level 100, k at level 200, right associativity, only parsing).

Definition events {A} (m : Async A) : list Event := fst m.
Definition outcome {A} (m : Async A) : Thrown + A := snd m.

(** The messages of the four [new Error(...)] sites. *)
Definition msg_convert : string :=
  "Failed to convert file to base64. The file might be empty or corrupt.".
Definition msg_api_key : string :=
  "API_KEY environment variable not set. Please ensure it's configured.".
Definition msg_no_image : string :=
  "No image data found in the API response. The prompt may have been blocked or the model could not generate an image.".
Definition msg_failed : string :=
  "Failed to generate image. Please check your prompt or try a different image.".

(** [fileToBase64]: read the file as a data URL and keep what stands between
    the first and the second comma. *)
Definition fileToBase64 (env : Env) (file : File) : Async string :=
  emit (EvReadAsDataURL file) ;;
  match readAsDataURL env file with
  | Loaded result =>
      match split ","%char result !! 1%nat with
      | Some base64Data =>
          if truthy base64Data then resolve base64Data
          else reject (Error msg_convert)
      | None => reject (Error msg_convert)
      end
  | ReadFailed => reject ProgressEvent
  end.

(** [response.candidates?.[0]?.content?.parts || []] *)
Definition response_parts (response : GenerateContentResponse) : list Part :=
  match candidates response with
  | Some (c :: _) =>
      match content c with
      | Some ct => default [] (parts ct)
      | None => []
      end
  | _ => []
  end.

(** The [for ... of] loop of the extraction: the first part whose
    [inlineData] is present returns its [data]. *)
Fixpoint first_inline_data (ps : list Part) : option (option string) :=
  match ps with
  | [] => None
  | part :: rest =>
      match inlineData part with
      | Some blob => Some (data blob)
      | None => first_inline_data rest
      end
  end.

Definition instruction (prompt : string) : string :=
  "Apply the following edit to the image: " +:+ prompt.

Definition request (base64Data : string) (imageFile : File) (prompt : string)
  : GenerateContentParameters :=
  {| model := "gemini-2.5-flash-image";
     contents :=
       [ {| inlineData := Some {| data := Some base64Data;
                                  mimeType := Some (type imageFile) |};
            text := None |};
         {| inlineData := None; text := Some (instruction prompt) |} ];
     responseModalities := [IMAGE] |}.

Definition call_backend (env : Env) (req : GenerateContentParameters)
  : Async GenerateContentResponse :=
  emit (EvGenerateContent req) ;;
  match generateContent env req with
  | Fulfilled response => resolve response
  | Rejected reason => reject reason
  end.

Definition editImageWithPrompt (env : Env) (imageFile : File) (prompt : string)
  : Async (option string) :=
  if negb (truthy_opt (API_KEY env)) then reject (Error msg_api_key)
  else
    let! base64Data := fileToBase64 env imageFile in
    try_catch
      (let! response := call_backend env (request base64Data imageFile prompt) in
       match first_inline_data (response_parts response) with
       | Some d => resolve d
       | None => reject (Error msg_no_image)
       end)
      (fun error =>
         emit (EvConsoleError (Some "Error calling Gemini API:") error) ;;
         reject (Error msg_failed)).

End GeminiService.

(** ** The controller, [App.tsx] *)

Module App.
Import Js GeminiService.

(** The six [useState] cells. [originalImageUrl] holds the object URL that
    [URL.createObjectURL] returned, kept as the key under which the browser
    registered the file. *)
Record State : Type := {
  originalImageFile : option File;
  originalImageUrl : option nat;
  editedImageUrl : option string;
  prompt : string;
  isLoading : bool;
  error : option string
}.

(** The [<a>] element [handleDownload] builds and clicks. *)
Record Anchor : Type := { href : string; download : string }.

(** The controller in its browser: the component state, the browser's store
    of live object URLs, the [editImageWithPrompt] promises not yet settled
    (by number of invocation, each with the outcome it will deliver), the
    number of invocations begun, the effects performed and the files
    exported so far. *)
Record World : Type := {
  app : State;
  objectURLs : gmap nat File;
  pending : gmap nat (Thrown + option string);
  issued : nat;
  trace : list Event;
  downloads : list Anchor
}.

Definition with_app (w : World) (s : State) : World :=
  {| app := s; objectURLs := objectURLs w; pending := pending w;
     issued := issued w; trace := trace w; downloads := downloads w |}.

Definition setError (v : option string) (s : State) : State :=
  {| originalImageFile := originalImageFile s; originalImageUrl := originalImageUrl s;
     editedImageUrl := editedImageUrl s; prompt := prompt s;
     isLoading := isLoading s; error := v |}.

Definition setEditedImageUrl (v : option string) (s : State) : State :=
  {| originalImageFile := originalImageFile s; originalImageUrl := originalImageUrl s;
     editedImageUrl := v; prompt := prompt s;
     isLoading := isLoading s; error := error s |}.

Definition setIsLoading (v : bool) (s : State) : State :=
  {| originalImageFile := originalImageFile s; originalImageUrl := originalImageUrl s;
     editedImageUrl := editedImageUrl s; prompt := prompt s;
     isLoading := v; error := error s |}.

Definition setPrompt (v : string) (s : State) : State :=
  {| originalImageFile := originalImageFile s; originalImageUrl := originalImageUrl s;
     editedImageUrl := editedImageUrl s; prompt := v;
     isLoading := isLoading s; error := error s |}.

Definition setOriginalImageFile (v : option File) (s : State) : State :=
  {| originalImageFile := v; originalImageUrl := originalImageUrl s;
     editedImageUrl := editedImageUrl s; prompt := prompt s;
     isLoading := isLoading s; error := error s |}.

Definition setOriginalImageUrl (v : option nat) (s : State) : State :=
  {| originalImageFile := originalImageFile s; originalImageUrl := v;
     editedImageUrl := editedImageUrl s; prompt := prompt s;
     isLoading := isLoading s; error := error s |}.

(** The state of the first render. *)
Definition initial : State :=
  {| originalImageFile := None; originalImageUrl := None; editedImageUrl := None;
     prompt := ""; isLoading := false; error := None |}.

Definition init : World :=
  {| app := initial; objectURLs := ∅; pending := ∅; issued := 0;
     trace := []; downloads := [] |}.

(** [URL.createObjectURL(file)]: the file is registered under a URL not in
    use. Entries leave the store through [URL.revokeObjectURL] only, which
    the program never calls. *)
Definition createObjectURL (store : gmap nat File) (file : File)
  : nat * gmap nat File :=
  let url := fresh (dom store) in (url, <[url := file]> store).

(** [handleImageUpload], on [event.target.files?.[0]]. *)
Definition handleImageUpload (file : option File) (w : World) : World :=
  match file with
  | Some f =>
      let '(url, store) := createObjectURL (objectURLs w) f in
      {| app := setError None (setEditedImageUrl None
                  (setOriginalImageUrl (Some url)
                     (setOriginalImageFile (Some f) (app w))));
         objectURLs := store; pending := pending w; issued := issued w;
         trace := trace w; downloads := downloads w |}
  | None => w
  end.

(** [handleStyleClick] and the textarea's [onChange]. *)
Definition handleStyleClick (style : string) (w : World) : World :=
  with_app w (setPrompt style (app w)).

Definition msg_guidance : string :=
  "Please upload an image and select a style or enter a prompt.".
Definition msg_unknown : string := "An unknown error occurred.".
Definition png_prefix : string := "data:image/png;base64,".
Definition download_name : string := "gemini-styled-image.png".

(** [handleGenerate] up to its [await]: the guard, the three setters, and the
    call of the client, whose promise joins the pending ones. The effects of
    the call are entered in the trace where the call is made; when its
    promise settles is up to [settle]. *)
Definition handleGenerate (env : Env) (w : World) : World :=
  match originalImageFile (app w) with
  | Some imageFile =>
      if truthy (prompt (app w)) then
        let call := editImageWithPrompt env imageFile (prompt (app w)) in
        {| app := setEditedImageUrl None (setError None (setIsLoading true (app w)));
           objectURLs := objectURLs w;
           pending := <[issued w := outcome call]> (pending w);
           issued := S (issued w);
           trace := trace w ++ events call;
           downloads := downloads w |}
      else with_app w (setError (Some msg_guidance) (app w))
  | None => with_app w (setError (Some msg_guidance) (app w))
  end.

(** [handleGenerate] from its [await] on: [try] continues on a value,
    [catch] takes a rejection, [finally] runs after either. *)
Definition resume (result : Thrown + option string) (w : World) : World :=
  match result with
  | inr base64Data =>
      with_app w (setIsLoading false
                    (setEditedImageUrl (Some (png_prefix +:+ template base64Data))
                       (app w)))
  | inl e =>
      {| app := setIsLoading false
                  (setError (Some (or_else (message e) msg_unknown)) (app w));
         objectURLs := objectURLs w; pending := pending w; issued := issued w;
         trace := trace w ++ [EvConsoleError None e];
         downloads := downloads w |}
  end.

(** The promise of invocation [id] settles and its [handleGenerate] resumes. *)
Definition settle (id : nat) (w : World) : World :=
  match pending w !! id with
  | Some result =>
      resume result
        {| app := app w; objectURLs := objectURLs w;
           pending := delete id (pending w); issued := issued w;
           trace := trace w; downloads := downloads w |}
  | None => w
  end.

(** [handleDownload]: the link that gets clicked, if any. *)
Definition download_link (s : State) : option Anchor :=
  match editedImageUrl s with
  | Some url =>
      if truthy url then Some {| href := url; download := download_name |}
      else None
  | None => None
  end.

Definition handleDownload (w : World) : World :=
  match download_link (app w) with
  | Some link =>
      {| app := app w; objectURLs := objectURLs w; pending := pending w;
         issued := issued w; trace := trace w;
         downloads := downloads w ++ [link] |}
  | None => w
  end.

(** The output panel: the nested conditional of the render. *)
Inductive View : Type :=
  | Loader
  | ErrorDisplay (message : string)
  | EditedPreview (src : string)
  | OutputPlaceholder.

Definition output_panel (s : State) : View :=
  if isLoading s then Loader
  else if truthy_opt (error s) then ErrorDisplay (default "" (error s))
  else if truthy_opt (editedImageUrl s) then EditedPreview (default "" (editedImageUrl s))
  else OutputPlaceholder.

(** [disabled] of the Generate button, negated. *)
Definition generate_enabled (s : State) : bool :=
  negb (isLoading s
        || negb (bool_decide (is_Some (originalImageFile s)))
        || negb (truthy (prompt s))).

(** The lifecycle state is the view the output panel renders. *)
Inductive LifecycleState : Type := Idle | Loading | Succeeded | Failed.

Definition lifecycle (s : State) : LifecycleState :=
  match output_panel s with
  | Loader => Loading
  | ErrorDisplay _ => Failed
  | EditedPreview _ => Succeeded
  | OutputPlaceholder => Idle
  end.

Definition shown_image (v : View) : option string :=
  match v with EditedPreview src => Some src | _ => None end.
Definition shown_error (v : View) : option string :=
  match v with ErrorDisplay m => Some m | _ => None end.

(** What can happen to the controller. *)
Inductive Action : Type :=
  | SelectImage (file : option File)
  | SetPrompt (value : string)
  | Generate (env : Env)
  | Settle (id : nat)
  | Download.

Definition step (w : World) (a : Action) : World :=
  match a with
  | SelectImage file => handleImageUpload file w
  | SetPrompt value => handleStyleClick value w
  | Generate env => handleGenerate env w
  | Settle id => settle id w
  | Download => handleDownload w
  end.

Definition run_from (w : World) (acts : list Action) : World := foldl step w acts.
Definition run (acts : list Action) : World := run_from init acts.

(** Through the rendered page an action is possible only where its control
    is: the Generate button is disabled while loading or without image or
    prompt, the download button exists only beside a result, and only a
    pending promise settles. *)
Definition enabled (w : World) (a : Action) : bool :=
  match a with
  | SelectImage _ => true
  | SetPrompt _ => true
  | Generate _ => generate_enabled (app w)
  | Settle id => bool_decide (is_Some (pending w !! id))
  | Download => bool_decide (is_Some (shown_image (output_panel (app w))))
  end.

Fixpoint ui_from (w : World) (acts : list Action) : bool :=
  match acts with
  | [] => true
  | a :: rest => enabled w a && ui_from (step w a) rest
  end.

Definition ui (acts : list Action) : bool := ui_from init acts.

(** The left panel: the preview of the selected image under its object URL
    (an object URL is never the empty string, so the test on
    [originalImageUrl] is whether it is set), or the upload placeholder. *)
Inductive InputView : Type :=
  | ImagePreview (src : nat)
  | ImagePlaceholder.

Definition input_panel (s : State) : InputView :=
  match originalImageUrl s with
  | Some url => ImagePreview url
  | None => ImagePlaceholder
  end.

End App.

(** ** Vocabulary of the properties *)

Module Props.
Import Js GeminiService App.

(** The error kinds of the design, recognised by the [throw] site: the
    client has one [Error] class and tells its failures apart by message. *)
Definition ConfigurationError (e : Thrown) : Prop := e = Error msg_api_key.
Definition EncodingError (e : Thrown) : Prop :=
  e = Error msg_convert ∨ e = ProgressEvent.
Definition GenerationError (e : Thrown) : Prop :=
  e = Error msg_no_image ∨ e = Error msg_failed.

(** Does character [c] occur in [s]? *)
Fixpoint occurs (c : ascii) (s : string) : bool :=
  match s with
  | EmptyString => false
  | String c' rest => Ascii.eqb c' c || occurs c rest
  end.


Definition is_request (ev : Event) : bool :=
  match ev with EvGenerateContent _ => true | _ => false end.

Definition is_selection (a : Action) : bool :=
  match a with SelectImage (Some _) => true | _ => false end.

(** The instruction as the design document words it. *)
Definition documented_instruction (prompt : string) : string :=
  "apply the following edit to the image: " +:+ prompt.

(** Encoding fails exactly when the reader fails or the segment after the
    first comma is missing or empty. *)
Definition encoding_fails (env : Env) (imageFile : File) : bool :=
  match readAsDataURL env imageFile with
  | Loaded result => negb (truthy_opt (split ","%char result !! 1%nat))
  | ReadFailed => true
  end.

(** *** Invariants of the controller *)

(** Through the page: while loading, the one pending promise is that of the
    latest invocation and neither result cell is set; otherwise nothing is
    pending; and the two result cells are never both set. *)
Definition single_flight (w : World) : Prop :=
  (if isLoading (app w)
   then error (app w) = None ∧ editedImageUrl (app w) = None
        ∧ ∃ id o, issued w = S id ∧ pending w = {[ id := o ]}
   else pending w = ∅)
  ∧ ¬ (is_Some (error (app w)) ∧ is_Some (editedImageUrl (app w))).

(** The displayed preview is registered, under the file it was made of. *)
Definition preview_registered (w : World) : Prop :=
  match originalImageUrl (app w) with
  | Some url => ∃ f, originalImageFile (app w) = Some f ∧ objectURLs w !! url = Some f
  | None => originalImageFile (app w) = None
  end.

(** The result cell is empty or holds a PNG data URL. *)
Definition png_labelled (s : State) : Prop :=
  match editedImageUrl s with
  | Some url => ∃ base64Data, url = png_prefix +:+ base64Data
  | None => True
  end.

(** *** Concrete platforms and files for the examples *)

Definition cat_png : File := {| name := "cat.png"; type := "image/png" |}.
Definition dog_jpg : File := {| name := "dog.jpg"; type := "image/jpeg" |}.

Definition response_of (ps : list Part) : GenerateContentResponse :=
  {| candidates := Some [ {| content := Some {| parts := Some ps |} |} ] |}.

Definition text_part (s : string) : Part :=
  {| inlineData := None; text := Some s |}.
Definition image_part (d mime : string) : Part :=
  {| inlineData := Some {| data := Some d; mimeType := Some mime |}; text := None |}.

(** A platform with the key set, a reader that loads every file as a data
    URL of its type, and a backend answering with the given parts. *)
Definition answering (ps : list Part) : Env :=
  {| API_KEY := Some "secret";
     readAsDataURL := fun f => Loaded ("data:" +:+ type f +:+ ";base64,iVBORw0KGgo=");
     generateContent := fun _ => Fulfilled (response_of ps) |}.

(** A platform without key whose reader fails. *)
Definition unconfigured_unreadable : Env :=
  {| API_KEY := None;
     readAsDataURL := fun _ => ReadFailed;
     generateContent := fun _ => Fulfilled (response_of []) |}.

(** A platform with the key set whose reader fails. *)
Definition unreadable : Env :=
  {| API_KEY := Some "secret";
     readAsDataURL := fun _ => ReadFailed;
     generateContent := fun _ => Fulfilled (response_of []) |}.

Definition refusal : list Part := [text_part "I cannot help with that."].

(** Two platforms that answer with different images. *)
Definition first_answer : Env := answering [image_part "Rmlyc3Q=" "image/png"].
Definition second_answer : Env := answering [image_part "U2Vjb25k" "image/png"].

(** A platform whose backend answers a text part, then a WEBP image, then
    a PNG image. *)
Definition webp_answer : Env :=
  answering [text_part "Here you are."; image_part "UklGRg==" "image/webp";
             image_part "iVBORw==" "image/png"].


(** *** Vocabulary of the further properties *)

(** The values [editImageWithPrompt] can reject with. *)
Definition client_rejection (e : Thrown) : Prop :=
  e = Error msg_api_key ∨ e = Error msg_convert ∨ e = ProgressEvent
  ∨ e = Error msg_failed.

(** The messages the error cell can hold. *)
Definition controller_message (m : string) : Prop :=
  m = msg_guidance ∨ m = msg_api_key ∨ m = msg_convert ∨ m = msg_unknown
  ∨ m = msg_failed.

(** The messages a settled request can leave in the error cell. *)
Definition request_message (m : string) : Prop :=
  m = msg_api_key ∨ m = msg_convert ∨ m = msg_unknown ∨ m = msg_failed.

Definition is_read (ev : Event) : bool :=
  match ev with EvReadAsDataURL _ => true | _ => false end.

Definition is_settle (a : Action) : bool :=
  match a with Settle _ => true | _ => false end.

Definition is_generate (a : Action) : bool :=
  match a with Generate _ => true | _ => false end.

(** A platform whose backend call fails in transport. *)
Definition unreachable_backend : Env :=
  {| API_KEY := Some "secret";
     readAsDataURL := fun f => Loaded ("data:" +:+ type f +:+ ";base64,iVBORw0KGgo=");
     generateContent := fun _ => Rejected (Error "503 Service Unavailable") |}.

(** A platform whose reader loads an empty file, as the bare "data:". *)
Definition empty_file : Env :=
  {| API_KEY := Some "secret";
     readAsDataURL := fun _ => Loaded "data:";
     generateContent := fun _ => Fulfilled (response_of []) |}.


(** A platform whose key is the empty string. *)
Definition empty_key : Env :=
  {| API_KEY := Some "";
     readAsDataURL := fun f => Loaded ("data:" +:+ type f +:+ ";base64,iVBORw0KGgo=");
     generateContent := fun _ => Fulfilled (response_of []) |}.

End Props.

(** ** Properties of the generation client *)

Import Js GeminiService App Props.

Section Client.

Variable env : Env.
Variable imageFile : File.
Variable prompt : string.

Lemma fileToBase64_events :
  events (fileToBase64 env imageFile) = [EvReadAsDataURL imageFile].
Proof.
  unfold fileToBase64, events; simpl.
  destruct (readAsDataURL env imageFile) as [result|]; [|reflexivity].
  destruct (split _ result !! 1%nat) as [b|]; [|reflexivity].
  destruct (truthy b); reflexivity.
Qed.

Lemma fileToBase64_eta :
  fileToBase64 env imageFile
  = ([EvReadAsDataURL imageFile], outcome (fileToBase64 env imageFile)).
Proof.
  rewrite <- fileToBase64_events. unfold events, outcome.
  destruct (fileToBase64 env imageFile); reflexivity.
Qed.

(** Without a key nothing is read and nothing is sent. *)
Lemma editImageWithPrompt_no_key :
  truthy_opt (API_KEY env) = false →
  editImageWithPrompt env imageFile prompt = ([], inl (Error msg_api_key)).
Proof. intros Hk. unfold editImageWithPrompt. rewrite Hk. reflexivity. Qed.

(** With a key, a failed encoding is the outcome, and nothing is sent. *)
Lemma editImageWithPrompt_encoding_fails e :
  truthy_opt (API_KEY env) = true →
  outcome (fileToBase64 env imageFile) = inl e →
  editImageWithPrompt env imageFile prompt = ([EvReadAsDataURL imageFile], inl e).
Proof.
  intros Hk He. unfold editImageWithPrompt. rewrite Hk. simpl.
  rewrite fileToBase64_eta, He. reflexivity.
Qed.

(** With a key and an encoded image, the one request goes out, and the
    outcome is read off the answer. *)
Lemma editImageWithPrompt_invoked base64Data :
  truthy_opt (API_KEY env) = true →
  outcome (fileToBase64 env imageFile) = inr base64Data →
  editImageWithPrompt env imageFile prompt =
    let req := request base64Data imageFile prompt in
    match generateContent env req with
    | Fulfilled response =>
        match first_inline_data (response_parts response) with
        | Some d => ([EvReadAsDataURL imageFile; EvGenerateContent req], inr d)
        | None =>
            ([EvReadAsDataURL imageFile; EvGenerateContent req;
              EvConsoleError (Some "Error calling Gemini API:") (Error msg_no_image)],
             inl (Error msg_failed))
        end
    | Rejected reason =>
        ([EvReadAsDataURL imageFile; EvGenerateContent req;
          EvConsoleError (Some "Error calling Gemini API:") reason],
         inl (Error msg_failed))
    end.
Proof.
  intros Hk Hb. unfold editImageWithPrompt. rewrite Hk. simpl.
  rewrite fileToBase64_eta, Hb. unfold await, try_catch, call_backend; simpl.
  destruct (generateContent env _) as [response|reason]; simpl; [|reflexivity].
  destruct (first_inline_data _); reflexivity.
Qed.

End Client.


Lemma first_inline_data_none ps :
  first_inline_data ps = None ↔ Forall (λ q, inlineData q = None) ps.
Proof.
  induction ps as [|q ps IH]; simpl.
  - split; [constructor | reflexivity].
  - destruct (inlineData q) as [blob|] eqn:Hq.
    + split; [discriminate|]. intros H. inversion H; congruence.
    + rewrite IH. split; [intros H; constructor; assumption|].
      intros H; inversion H; assumption.
Qed.

(** *** [split] on a data URL *)

Lemma split_without sep s :
  occurs sep s = false → split sep s = [s].
Proof.
  induction s as [|c s IH]; simpl; [reflexivity|].
  intros H. apply orb_false_iff in H as [Hc Hs].
  rewrite Hc, (IH Hs). reflexivity.
Qed.

Lemma split_at_first sep header rest :
  occurs sep header = false →
  split sep (header +:+ String sep rest) = header :: split sep rest.
Proof.
  induction header as [|c h IH]; simpl.
  - intros _. rewrite Ascii.eqb_refl. reflexivity.
  - intros H. apply orb_false_iff in H as [Hc Hh].
    rewrite Hc, (IH Hh). reflexivity.
Qed.

(** Of a data URL [header,payload] whose payload is not empty and has no
    comma (the base64 alphabet has none), [fileToBase64] keeps the payload. *)
Lemma fileToBase64_data_url env imageFile header payload :
  readAsDataURL env imageFile = Loaded (header +:+ String ","%char payload) →
  occurs ","%char header = false →
  occurs ","%char payload = false →
  truthy payload = true →
  outcome (fileToBase64 env imageFile) = inr payload.
Proof.
  intros Hread Hh Hp Ht. unfold fileToBase64, outcome; simpl. rewrite Hread.
  rewrite (split_at_first _ _ _ Hh), (split_without _ _ Hp). simpl.
  rewrite Ht. reflexivity.
Qed.

Lemma fileToBase64_fails env imageFile :
  encoding_fails env imageFile = true →
  ∃ e, outcome (fileToBase64 env imageFile) = inl e ∧ EncodingError e.
Proof.
  unfold encoding_fails, fileToBase64, outcome, EncodingError; simpl.
  destruct (readAsDataURL env imageFile) as [result|]; [|eauto].
  destruct (split _ result !! 1%nat) as [b|]; simpl; [|eauto].
  destruct (truthy b); simpl; [discriminate | eauto].
Qed.

Lemma fileToBase64_passes env imageFile :
  encoding_fails env imageFile = false →
  ∃ base64Data, outcome (fileToBase64 env imageFile) = inr base64Data
                ∧ truthy base64Data = true.
Proof.
  unfold encoding_fails, fileToBase64, outcome; simpl.
  destruct (readAsDataURL env imageFile) as [result|]; [|discriminate].
  destruct (split _ result !! 1%nat) as [b|]; simpl; [|discriminate].
  destruct (truthy b) eqn:Hb; simpl; [eauto | discriminate].
Qed.

(** A response without image part: the specific error is raised inside the
    [try] block, so the [catch] below it logs it and replaces it. *)
Lemma no_image_part_generic_failure env imageFile p base64Data response :
  truthy_opt (API_KEY env) = true →
  outcome (fileToBase64 env imageFile) = inr base64Data →
  generateContent env (request base64Data imageFile p) = Fulfilled response →
  Forall (λ q, inlineData q = None) (response_parts response) →
  editImageWithPrompt env imageFile p =
    ([EvReadAsDataURL imageFile;
      EvGenerateContent (request base64Data imageFile p);
      EvConsoleError (Some "Error calling Gemini API:") (Error msg_no_image)],
     inl (Error msg_failed)).
Proof.
  intros Hk Hb Hresp Hnone.
  rewrite (editImageWithPrompt_invoked _ _ _ _ Hk Hb); simpl. rewrite Hresp.
  apply first_inline_data_none in Hnone. rewrite Hnone. reflexivity.
Qed.

(** C1. A response with only a text part: the client fails, but with the
    generic retry message, and the controller ends in Failed displaying that
    generic message; the message about missing image data or a blocked
    prompt only reaches the console. *)
Theorem text_only_response_shows_generic_message :
  let call := editImageWithPrompt (answering refusal) cat_png "Anime style" in
  let w := run [SelectImage (Some cat_png); SetPrompt "Anime style";
                Generate (answering refusal); Settle 0] in
  outcome call = inl (Error msg_failed)
  ∧ last (events call)
    = Some (EvConsoleError (Some "Error calling Gemini API:") (Error msg_no_image))
  ∧ lifecycle (app w) = Failed
  ∧ output_panel (app w)
    = ErrorDisplay "Failed to generate image. Please check your prompt or try a different image."
  ∧ output_panel (app w) ≠ ErrorDisplay msg_no_image.
Proof. vm_compute. repeat split; try reflexivity. discriminate. Qed.

(** C4, as stated, fails: with the key absent and an unreadable image the
    client fails with the configuration error, not with an encoding error,
    and the file is never read. *)
Lemma absent_key_masks_unreadable_image :
  encoding_fails unconfigured_unreadable cat_png = true
  ∧ API_KEY unconfigured_unreadable = None
  ∧ editImageWithPrompt unconfigured_unreadable cat_png "Anime style"
    = ([], inl (Error msg_api_key))
  ∧ ¬ EncodingError (Error msg_api_key).
Proof.
  repeat split; try reflexivity.
  intros [H|H]; discriminate H.
Qed.

(** C4, amended. The credential check comes first: without a key the client
    fails with the configuration error whatever the image, reading nothing
    and sending nothing; with a key, an image that cannot be read or encodes
    to nothing fails with an encoding error, and nothing is sent. *)
Theorem credential_checked_before_encoding env imageFile p :
  (truthy_opt (API_KEY env) = false →
   ConfigurationError (Error msg_api_key)
   ∧ editImageWithPrompt env imageFile p = ([], inl (Error msg_api_key)))
  ∧ (truthy_opt (API_KEY env) = true →
     encoding_fails env imageFile = true →
     ∃ e, EncodingError e
          ∧ editImageWithPrompt env imageFile p = ([EvReadAsDataURL imageFile], inl e)).
Proof.
  split.
  - intros Hk. split; [reflexivity|]. by apply editImageWithPrompt_no_key.
  - intros Hk Hf. destruct (fileToBase64_fails _ _ Hf) as (e & He & Hkind).
    exists e. split; [assumption|]. by apply editImageWithPrompt_encoding_fails.
Qed.

Lemma credential_checked_before_encoding_witness :
  (ConfigurationError (Error msg_api_key)
   ∧ editImageWithPrompt unconfigured_unreadable dog_jpg "Watercolor"
     = ([], inl (Error msg_api_key)))
  ∧ ∃ e, EncodingError e
         ∧ editImageWithPrompt unreadable dog_jpg "Watercolor"
           = ([EvReadAsDataURL dog_jpg], inl e).
Proof.
  split.
  - apply (proj1 (credential_checked_before_encoding
                    unconfigured_unreadable dog_jpg "Watercolor")).
    reflexivity.
  - apply (proj2 (credential_checked_before_encoding unreadable dog_jpg "Watercolor"));
      reflexivity.
Defined.

(** C6, as stated, fails on the wording of the instruction: the request
    carries it with a capital A. *)
Lemma instruction_differs_from_documented :
  List.filter is_request
    (events (editImageWithPrompt (answering refusal) cat_png "Anime style"))
  = [EvGenerateContent
       {| model := "gemini-2.5-flash-image";
          contents := [image_part "iVBORw0KGgo=" "image/png";
                       text_part "Apply the following edit to the image: Anime style"];
          responseModalities := [IMAGE] |}]
  ∧ "Apply the following edit to the image: Anime style"
    ≠ documented_instruction "Anime style".
Proof. split; [reflexivity | discriminate]. Qed.

(** C6, amended. An invocation that passes the credential check and the
    encoding issues exactly one backend request; it carries the encoded
    image, the file's media type, the instruction
    "Apply the following edit to the image: " followed by the prompt, and
    IMAGE as the only response modality. *)
Theorem exactly_one_request env imageFile p base64Data :
  truthy_opt (API_KEY env) = true →
  outcome (fileToBase64 env imageFile) = inr base64Data →
  List.filter is_request (events (editImageWithPrompt env imageFile p))
  = [EvGenerateContent
       {| model := "gemini-2.5-flash-image";
          contents := [image_part base64Data (type imageFile);
                       text_part ("Apply the following edit to the image: " +:+ p)];
          responseModalities := [IMAGE] |}].
Proof.
  intros Hk Hb. rewrite (editImageWithPrompt_invoked _ _ _ _ Hk Hb); simpl.
  destruct (generateContent env _) as [response|reason]; [|reflexivity].
  destruct (first_inline_data _); reflexivity.
Qed.

Lemma exactly_one_request_witness :
  List.filter is_request
    (events (editImageWithPrompt (answering refusal) dog_jpg "Watercolor"))
  = [EvGenerateContent
       {| model := "gemini-2.5-flash-image";
          contents := [image_part "iVBORw0KGgo=" "image/jpeg";
                       text_part "Apply the following edit to the image: Watercolor"];
          responseModalities := [IMAGE] |}].
Proof.
  apply (exactly_one_request (answering refusal) dog_jpg "Watercolor" "iVBORw0KGgo=");
    reflexivity.
Defined.

(** ** Properties of the controller *)

Section Runs.

Lemma run_snoc acts a : run (acts ++ [a]) = step (run acts) a.
Proof. unfold run, run_from. rewrite foldl_app. reflexivity. Qed.

Lemma ui_from_app w acts acts' :
  ui_from w (acts ++ acts') = ui_from w acts && ui_from (run_from w acts) acts'.
Proof.
  revert w. induction acts as [|a acts IH]; intros w; simpl; [reflexivity|].
  rewrite IH, andb_assoc. reflexivity.
Qed.

(** What every handler preserves holds after every run. *)
Lemma run_invariant (P : World → Prop) :
  P init → (∀ w a, P w → P (step w a)) → ∀ acts, P (run acts).
Proof.
  intros Hinit Hstep acts. induction acts as [|a acts IH] using rev_ind.
  - exact Hinit.
  - rewrite run_snoc. apply Hstep, IH.
Qed.

(** What every enabled action preserves holds after every run through the
    page. *)
Lemma ui_invariant (P : World → Prop) :
  P init → (∀ w a, P w → enabled w a = true → P (step w a)) →
  ∀ acts, ui acts = true → P (run acts).
Proof.
  intros Hinit Hstep acts. induction acts as [|a acts IH] using rev_ind.
  - intros _. exact Hinit.
  - unfold ui. rewrite ui_from_app. intros H.
    apply andb_true_iff in H as [Hacts Ha]. simpl in Ha.
    rewrite andb_true_r in Ha. rewrite run_snoc.
    apply Hstep; [apply IH, Hacts | exact Ha].
Qed.

End Runs.

Lemma generate_enabled_true s :
  generate_enabled s = true →
  isLoading s = false ∧ (∃ f, originalImageFile s = Some f) ∧ truthy (prompt s) = true.
Proof.
  unfold generate_enabled. destruct (isLoading s); [discriminate|].
  destruct (originalImageFile s) as [f|]; [|discriminate].
  destruct (truthy (prompt s)); [eauto | discriminate].
Qed.

(** *** The output panel shows one thing at a time *)

Lemma panel_exclusive s :
  let v := output_panel s in
  (lifecycle s = Loading → shown_image v = None ∧ shown_error v = None)
  ∧ ¬ (is_Some (shown_image v) ∧ is_Some (shown_error v))
  ∧ (lifecycle s = Succeeded → isLoading s = false)
  ∧ (lifecycle s = Failed → isLoading s = false).
Proof.
  unfold lifecycle, output_panel.
  destruct (isLoading s), (truthy_opt (error s)), (truthy_opt (editedImageUrl s));
    simpl; repeat split; try discriminate; try reflexivity;
    intros [[? H1] [? H2]]; discriminate.
Qed.

(** *** One invocation in flight through the page *)

Lemma single_flight_init : single_flight init.
Proof. split; simpl; [reflexivity|]. intros [[? H] _]. discriminate H. Qed.

Lemma single_flight_step w a :
  single_flight w → enabled w a = true → single_flight (step w a).
Proof.
  intros [Hflight Hexcl] Hen. unfold single_flight.
  destruct a as [file|value|env|id|]; simpl in *.
  - (* SelectImage *)
    destruct file as [f|]; [|split; assumption]. simpl. split.
    + destruct (isLoading (app w)); [|assumption].
      destruct Hflight as (_ & _ & Hp). repeat split. exact Hp.
    + intros [[? H] _]. discriminate H.
  - (* SetPrompt *)
    split; assumption.
  - (* Generate *)
    apply generate_enabled_true in Hen as (Hl & [f Hf] & Hp).
    unfold handleGenerate. rewrite Hf, Hp. rewrite Hl in Hflight. simpl. split.
    + repeat split. exists (issued w), (outcome (editImageWithPrompt env f (prompt (app w)))).
      rewrite Hflight, insert_empty. auto.
    + intros [[? H] _]. discriminate H.
  - (* Settle *)
    apply bool_decide_eq_true in Hen as [result Hres].
    unfold settle. rewrite Hres.
    destruct (isLoading (app w)) eqn:Hl.
    + destruct Hflight as (Herr & Hed & k & o & Hk & Hp).
      rewrite Hp in Hres. apply lookup_singleton_Some in Hres as [-> ->].
      rewrite Hp, delete_singleton_eq.
      destruct result as [e|d]; simpl; (split; [reflexivity|]).
      * rewrite Hed. intros [_ [? H]]. discriminate H.
      * rewrite Herr. intros [[? H] _]. discriminate H.
    + rewrite Hflight, lookup_empty in Hres. discriminate Hres.
  - (* Download *)
    unfold handleDownload. destruct (download_link (app w)); split; assumption.
Qed.

Lemma single_flight_ui acts : ui acts = true → single_flight (run acts).
Proof.
  apply (ui_invariant single_flight); [apply single_flight_init|].
  apply single_flight_step.
Qed.

(** *** Object URLs are only ever added *)

(** Case analysis on the branches the handlers take in world [w]. *)
Ltac handler_cases w :=
  unfold handleGenerate, settle, handleDownload;
  repeat match goal with
    | |- context [match originalImageFile (app w) with _ => _ end] =>
        destruct (originalImageFile (app w)) eqn:?
    | |- context [if truthy (prompt (app w)) then _ else _] =>
        destruct (truthy (prompt (app w))) eqn:?
    | |- context [pending w !! ?id] =>
        destruct (pending w !! id) as [[?|?]|] eqn:?
    | |- context [download_link (app w)] =>
        destruct (download_link (app w)) eqn:?
    end.

Lemma fresh_unregistered (store : gmap nat File) : store !! fresh (dom store) = None.
Proof. apply not_elem_of_dom, is_fresh. Qed.

Lemma step_objectURLs w a :
  objectURLs (step w a)
  = match a with
    | SelectImage (Some f) => <[fresh (dom (objectURLs w)) := f]> (objectURLs w)
    | _ => objectURLs w
    end.
Proof.
  destruct a as [[f|]|value|env|id|]; simpl; try reflexivity;
    handler_cases w; reflexivity.
Qed.

Lemma step_preview w a :
  originalImageFile (app (step w a))
  = match a with SelectImage (Some f) => Some f | _ => originalImageFile (app w) end
  ∧ originalImageUrl (app (step w a))
    = match a with
      | SelectImage (Some f) => Some (fresh (dom (objectURLs w)))
      | _ => originalImageUrl (app w)
      end.
Proof.
  destruct a as [[f|]|value|env|id|]; simpl; try (split; reflexivity);
    handler_cases w; simpl; split; congruence.
Qed.

Lemma preview_registered_run acts : preview_registered (run acts).
Proof.
  apply (run_invariant preview_registered); [reflexivity|].
  intros w a Hw. unfold preview_registered.
  destruct (step_preview w a) as [Hf Hu]. rewrite Hf, Hu, step_objectURLs.
  destruct a as [[f|]|value|env|id|]; try exact Hw.
  exists f. split; [reflexivity | apply lookup_insert_eq].
Qed.

Lemma objectURLs_size acts :
  size (objectURLs (run acts)) = length (List.filter is_selection acts).
Proof.
  induction acts as [|a acts IH] using rev_ind; [reflexivity|].
  rewrite run_snoc, step_objectURLs, List.filter_app, length_app, <- IH.
  destruct a as [[f|]|value|env|id|]; simpl; try lia.
  rewrite map_size_insert_None by apply fresh_unregistered. lia.
Qed.

(** *** The result URL is always a PNG data URL *)

Lemma png_labelled_run acts : png_labelled (app (run acts)).
Proof.
  apply (run_invariant (λ w, png_labelled (app w))); [exact I|].
  intros w a Hw. unfold png_labelled in *.
  destruct a as [[f|]|value|env|id|]; simpl; try exact Hw; try exact I;
    handler_cases w; simpl; eauto.
Qed.


Lemma settle_failure w id e :
  pending w !! id = Some (inl e) →
  app (settle id w)
  = setIsLoading false (setError (Some (or_else (message e) msg_unknown)) (app w)).
Proof. intros H. unfold settle. rewrite H. reflexivity. Qed.

(** ** The claims about the controller *)

(** C2, as stated, fails: [handleGenerate] keeps no record of which
    invocation is the latest. Invoked twice before the first promise
    settles, it applies both outcomes on arrival; the first one to arrive
    ends the loading state, and the first invocation's image, arriving
    last, replaces the second's. *)
Lemma superseded_outcome_is_applied :
  let w := run [SelectImage (Some cat_png); SetPrompt "Anime style";
                Generate first_answer; Generate second_answer] in
  pending w !! 0 = Some (inr (Some "Rmlyc3Q="))
  ∧ pending w !! 1 = Some (inr (Some "U2Vjb25k"))
  ∧ output_panel (app (run_from w [Settle 0]))
    = EditedPreview "data:image/png;base64,Rmlyc3Q="
  ∧ output_panel (app (run_from w [Settle 1; Settle 0]))
    = EditedPreview "data:image/png;base64,Rmlyc3Q=".
Proof. vm_compute. repeat split; reflexivity. Qed.

(** C2, amended. Through the page a second Generate() cannot be triggered
    before the first's backend call resolves, because the button is disabled
    while loading: after every run through the page at most one invocation
    is pending, it is the latest one begun, the state is loading exactly
    while one is pending, and the button is disabled while loading. (The
    handler itself discards nothing.) *)
Theorem ui_single_flight acts :
  ui acts = true →
  let w := run acts in
  size (pending w) ≤ 1
  ∧ (∀ id o, pending w !! id = Some o → issued w = S id)
  ∧ (isLoading (app w) = true ↔ pending w ≠ ∅)
  ∧ (isLoading (app w) = true → generate_enabled (app w) = false).
Proof.
  intros Hui w. destruct (single_flight_ui acts Hui) as [Hflight _].
  fold w in Hflight. unfold generate_enabled.
  destruct (isLoading (app w)).
  - destruct Hflight as (_ & _ & k & o' & Hk & Hp). rewrite Hp.
    split; [rewrite map_size_singleton; lia|].
    split; [intros id o Hid; apply lookup_singleton_Some in Hid as [<- _]; exact Hk|].
    split; [|reflexivity].
    split; [|reflexivity].
    intros _ Hempty. apply (f_equal size) in Hempty.
    rewrite map_size_singleton, map_size_empty in Hempty. discriminate Hempty.
  - rewrite Hflight.
    split; [rewrite map_size_empty; lia|].
    split; [intros id o Hid; rewrite lookup_empty in Hid; discriminate Hid|].
    split; [|discriminate].
    split; [discriminate | intros Hne; destruct Hne; reflexivity].
Qed.

Lemma ui_single_flight_witness :
  let w := run [SelectImage (Some cat_png); SetPrompt "Anime style";
                Generate first_answer; SetPrompt "Watercolor"] in
  size (pending w) ≤ 1
  ∧ (∀ id o, pending w !! id = Some o → issued w = S id)
  ∧ (isLoading (app w) = true ↔ pending w ≠ ∅)
  ∧ (isLoading (app w) = true → generate_enabled (app w) = false).
Proof.
  apply (ui_single_flight
           [SelectImage (Some cat_png); SetPrompt "Anime style";
            Generate first_answer; SetPrompt "Watercolor"]).
  reflexivity.
Defined.

(** C3, as stated, fails where the lifecycle state is concerned: the guard
    sets the error cell and leaves [isLoading] alone, so an invocation with
    an empty prompt while an earlier request is loading leaves the panel on
    the loader, not on the error. *)
Lemma invalid_generate_while_loading_shows_loader :
  let w := run [SelectImage (Some cat_png); SetPrompt "Anime style";
                Generate first_answer; SetPrompt ""] in
  prompt (app w) = ""
  ∧ error (app (step w (Generate first_answer))) = Some msg_guidance
  ∧ lifecycle (app (step w (Generate first_answer))) = Loading
  ∧ lifecycle (app (step w (Generate first_answer))) ≠ Failed.
Proof. vm_compute. repeat split; try reflexivity. discriminate. Qed.

(** C3, amended. Without selected image or with an empty prompt,
    [handleGenerate] initiates no backend call and sets the error cell to
    the guidance message; every other cell, [isLoading] included, is left
    unchanged, so the panel shows Failed with that message unless an earlier
    request is still loading. *)
Theorem handleGenerate_guard env w :
  originalImageFile (app w) = None ∨ prompt (app w) = "" →
  let w' := handleGenerate env w in
  trace w' = trace w ∧ pending w' = pending w ∧ issued w' = issued w
  ∧ error (app w')
    = Some "Please upload an image and select a style or enter a prompt."
  ∧ originalImageFile (app w') = originalImageFile (app w)
  ∧ originalImageUrl (app w') = originalImageUrl (app w)
  ∧ prompt (app w') = prompt (app w)
  ∧ editedImageUrl (app w') = editedImageUrl (app w)
  ∧ isLoading (app w') = isLoading (app w)
  ∧ objectURLs w' = objectURLs w ∧ downloads w' = downloads w
  ∧ output_panel (app w')
    = (if isLoading (app w) then Loader else ErrorDisplay msg_guidance)
  ∧ lifecycle (app w') = (if isLoading (app w) then Loading else Failed).
Proof.
  intros Hinvalid w'.
  assert (Hw' : w' = with_app w (setError (Some msg_guidance) (app w))).
  { unfold w', handleGenerate. destruct Hinvalid as [Hf|Hp].
    - rewrite Hf. reflexivity.
    - rewrite Hp. destruct (originalImageFile (app w)); reflexivity. }
  rewrite Hw'. unfold lifecycle, output_panel. simpl.
  destruct (isLoading (app w)); repeat split; reflexivity.
Qed.

Lemma handleGenerate_guard_witness :
  let w' := handleGenerate first_answer init in
  trace w' = trace init ∧ pending w' = pending init ∧ issued w' = issued init
  ∧ error (app w')
    = Some "Please upload an image and select a style or enter a prompt."
  ∧ originalImageFile (app w') = originalImageFile (app init)
  ∧ originalImageUrl (app w') = originalImageUrl (app init)
  ∧ prompt (app w') = prompt (app init)
  ∧ editedImageUrl (app w') = editedImageUrl (app init)
  ∧ isLoading (app w') = isLoading (app init)
  ∧ objectURLs w' = objectURLs init ∧ downloads w' = downloads init
  ∧ output_panel (app w')
    = (if isLoading (app init) then Loader else ErrorDisplay msg_guidance)
  ∧ lifecycle (app w') = (if isLoading (app init) then Loading else Failed).
Proof.
  apply (handleGenerate_guard first_answer init). left. reflexivity.
Defined.

(** C7, as stated, fails: [handleImageUpload] does not touch [isLoading].
    Selecting another image while a request is loading, which the page
    allows, leaves the lifecycle in Loading, and the earlier request's image
    is then displayed beside the new selection. *)
Lemma select_while_loading_stays_loading :
  let acts := [SelectImage (Some cat_png); SetPrompt "Anime style";
               Generate first_answer; SelectImage (Some dog_jpg)] in
  ui acts = true
  ∧ originalImageFile (app (run acts)) = Some dog_jpg
  ∧ lifecycle (app (run acts)) = Loading
  ∧ lifecycle (app (run acts)) ≠ Idle
  ∧ ui (acts ++ [Settle 0]) = true
  ∧ lifecycle (app (run (acts ++ [Settle 0]))) = Succeeded.
Proof. vm_compute. repeat split; try reflexivity. discriminate. Qed.

(** C7, amended. Selecting a file replaces the selected image, registers and
    displays a new preview URL, clears the result and the error, and leaves
    prompt and loading flag as they were: the lifecycle is Idle afterwards
    unless a request is loading, in which case it stays Loading. In
    particular, when a result or an error was displayed, the lifecycle is
    Idle afterwards. *)
Theorem handleImageUpload_effect w f :
  let w' := handleImageUpload (Some f) w in
  originalImageFile (app w') = Some f
  ∧ (∃ url, originalImageUrl (app w') = Some url
            ∧ objectURLs w !! url = None ∧ objectURLs w' !! url = Some f)
  ∧ editedImageUrl (app w') = None
  ∧ error (app w') = None
  ∧ prompt (app w') = prompt (app w)
  ∧ isLoading (app w') = isLoading (app w)
  ∧ lifecycle (app w') = (if isLoading (app w) then Loading else Idle)
  ∧ (lifecycle (app w) = Succeeded ∨ lifecycle (app w) = Failed →
     lifecycle (app w') = Idle).
Proof.
  simpl. repeat split.
  - exists (fresh (dom (objectURLs w))).
    split; [reflexivity|]. split; [apply fresh_unregistered | apply lookup_insert_eq].
  - unfold lifecycle, output_panel; simpl. destruct (isLoading (app w)); reflexivity.
  - unfold lifecycle, output_panel; simpl.
    destruct (isLoading (app w)); [|reflexivity].
    intros [H|H]; discriminate H.
Qed.

Lemma handleImageUpload_effect_witness :
  let w := run [SelectImage (Some cat_png); SetPrompt "Anime style";
                Generate first_answer; Settle 0] in
  lifecycle (app w) = Succeeded
  ∧ lifecycle (app (handleImageUpload (Some dog_jpg) w)) = Idle.
Proof.
  split; [reflexivity|].
  apply (handleImageUpload_effect
           (run [SelectImage (Some cat_png); SetPrompt "Anime style";
                 Generate first_answer; Settle 0]) dog_jpg).
  left. reflexivity.
Defined.

(** C8. After every sequence of handler invocations and settled promises,
    the output panel obeys the lifecycle invariant: Loading shows neither a
    result image nor an error, a result image and an error are never shown
    together (Succeeded and Failed exclude each other), and Succeeded and
    Failed each imply that [isLoading] is false. After every run through the
    page the cells themselves agree: while loading both result cells are
    empty, and they are never both set. *)
Theorem lifecycle_invariant acts :
  let s := app (run acts) in
  let v := output_panel s in
  (lifecycle s = Loading → shown_image v = None ∧ shown_error v = None)
  ∧ ¬ (lifecycle s = Succeeded ∧ lifecycle s = Failed)
  ∧ ¬ (is_Some (shown_image v) ∧ is_Some (shown_error v))
  ∧ (lifecycle s = Succeeded → isLoading s = false)
  ∧ (lifecycle s = Failed → isLoading s = false)
  ∧ (ui acts = true →
     (isLoading s = true → error s = None ∧ editedImageUrl s = None)
     ∧ ¬ (is_Some (error s) ∧ is_Some (editedImageUrl s))).
Proof.
  intros s v. destruct (panel_exclusive s) as (Hload & Hexcl & Hsucc & Hfail).
  split; [exact Hload|]. split; [intros [H1 H2]; congruence|].
  split; [exact Hexcl|]. split; [exact Hsucc|]. split; [exact Hfail|].
  intros Hui. destruct (single_flight_ui acts Hui) as [Hflight Hcells].
  fold s in Hflight, Hcells. split; [|exact Hcells].
  intros Hl. rewrite Hl in Hflight. destruct Hflight as (He & Hd & _). auto.
Qed.

Lemma lifecycle_invariant_witness :
  let s := app (run [SelectImage (Some cat_png); SetPrompt "Anime style";
                     Generate first_answer]) in
  lifecycle s = Loading
  ∧ shown_image (output_panel s) = None ∧ shown_error (output_panel s) = None
  ∧ error s = None ∧ editedImageUrl s = None.
Proof.
  pose proof (lifecycle_invariant
                [SelectImage (Some cat_png); SetPrompt "Anime style";
                 Generate first_answer]) as (Hload & _ & _ & _ & _ & Hui).
  split; [reflexivity|].
  destruct (Hload eq_refl) as [Hi He].
  destruct (Hui eq_refl) as [Hcells _].
  destruct (Hcells eq_refl) as [Hc1 Hc2].
  repeat split; assumption.
Defined.

(** The cells can both be set when the handler is invoked where the page
    would not allow it; the panel still shows the error alone. *)
Example cells_overlap_outside_the_page :
  let acts := [SelectImage (Some cat_png); SetPrompt "Anime style";
               Generate first_answer; Settle 0; SetPrompt "";
               Generate first_answer] in
  ui acts = false
  ∧ editedImageUrl (app (run acts)) = Some "data:image/png;base64,Rmlyc3Q="
  ∧ output_panel (app (run acts)) = ErrorDisplay msg_guidance.
Proof. vm_compute. repeat split; reflexivity. Qed.

(** C9, as stated, fails: nothing revokes an object URL. After a second
    selection the first preview is still registered, though it is no longer
    the current one. *)
Lemma previous_preview_stays_registered :
  let w := run [SelectImage (Some cat_png); SelectImage (Some dog_jpg)] in
  originalImageUrl (app w) = Some 1
  ∧ objectURLs w !! 0 = Some cat_png
  ∧ objectURLs w !! 1 = Some dog_jpg
  ∧ size (objectURLs w) = 2.
Proof. vm_compute. repeat split; reflexivity. Qed.

(** C9, amended. Selecting an image registers a new preview URL and makes
    it the current one; no handler removes a registered URL. So after every
    run the store holds one preview per selection made, the current preview
    among them, registered for the selected file. *)
Theorem object_urls_accumulate acts :
  let w := run acts in
  size (objectURLs w) = length (List.filter is_selection acts)
  ∧ (∀ a, objectURLs w ⊆ objectURLs (step w a))
  ∧ (∀ url, originalImageUrl (app w) = Some url →
       ∃ f, originalImageFile (app w) = Some f ∧ objectURLs w !! url = Some f).
Proof.
  intros w. split; [apply objectURLs_size|]. split.
  - intros a. rewrite step_objectURLs.
    destruct a as [[f|]|value|env|id|]; try reflexivity.
    apply insert_subseteq, fresh_unregistered.
  - intros url Hurl. pose proof (preview_registered_run acts) as Hreg.
    unfold preview_registered in Hreg. fold w in Hreg. rewrite Hurl in Hreg.
    exact Hreg.
Qed.

Lemma object_urls_accumulate_witness :
  let w := run [SelectImage (Some cat_png); SetPrompt "Anime style";
                SelectImage (Some dog_jpg)] in
  size (objectURLs w) = 2
  ∧ ∃ f, originalImageFile (app w) = Some f ∧ objectURLs w !! 1 = Some f.
Proof.
  pose proof (object_urls_accumulate
                [SelectImage (Some cat_png); SetPrompt "Anime style";
                 SelectImage (Some dog_jpg)]) as (Hsize & _ & Hcur).
  split; [exact Hsize|]. apply Hcur. reflexivity.
Defined.



(** ** Further properties of the generation client *)

(** *** What [fileToBase64] returns *)

Lemma fileToBase64_inv env imageFile base64Data :
  outcome (fileToBase64 env imageFile) = inr base64Data →
  ∃ result, readAsDataURL env imageFile = Loaded result
            ∧ split ","%char result !! 1%nat = Some base64Data
            ∧ truthy base64Data = true.
Proof.
  unfold fileToBase64, outcome; simpl.
  destruct (readAsDataURL env imageFile) as [result|]; [|discriminate].
  destruct (split _ result !! 1%nat) as [b|] eqn:Hb; simpl; [|discriminate].
  destruct (truthy b) eqn:Ht; simpl; [|discriminate].
  intros [= <-]. eauto.
Qed.

Lemma fileToBase64_rejection env imageFile e :
  outcome (fileToBase64 env imageFile) = inl e → EncodingError e.
Proof.
  unfold fileToBase64, outcome, EncodingError; simpl.
  destruct (readAsDataURL env imageFile) as [result|]; [|intros [= <-]; auto].
  destruct (split _ result !! 1%nat) as [b|]; simpl; [|intros [= <-]; auto].
  destruct (truthy b); simpl; [discriminate | intros [= <-]; auto].
Qed.

Lemma append_empty_r (s : string) : s +:+ "" = s.
Proof.
  induction s as [|c s IH]; [reflexivity|].
  rewrite <- IH at 2. reflexivity.
Qed.

Lemma split_nonempty sep s : split sep s ≠ [].
Proof.
  destruct s as [|c s]; simpl; [discriminate|].
  destruct (Ascii.eqb c sep); [discriminate|].
  destruct (split sep s); discriminate.
Qed.

(** The first segment has no separator; either it is the whole string, or
    a separator follows it and the other segments are those of the rest. *)
Lemma split_decompose sep s seg segs :
  split sep s = seg :: segs →
  occurs sep seg = false
  ∧ ((segs = [] ∧ s = seg)
     ∨ ∃ rest, s = seg +:+ String sep rest ∧ split sep rest = segs).
Proof.
  revert seg segs. induction s as [|c s IH]; intros seg segs; simpl.
  - intros [= <- <-]. auto.
  - destruct (Ascii.eqb c sep) eqn:Hc.
    + intros [= <- <-]. apply Ascii.eqb_eq in Hc as ->.
      split; [reflexivity|]. right. exists s. auto.
    + destruct (split sep s) as [|seg0 segs0] eqn:Hs;
        [destruct (split_nonempty _ _ Hs)|].
      intros [= <- <-]. destruct (IH _ _ eq_refl) as [Hclean Hrest].
      split; [simpl; rewrite Hc; exact Hclean|].
      destruct Hrest as [[-> ->]|(rest & -> & Hsplit)]; [left; auto|].
      right. exists rest. auto.
Qed.

(** X1. What [fileToBase64] resolves with is never empty and holds no comma:
    it is the stretch of the reader's result between its first comma and
    the next one, or the end. *)
Theorem fileToBase64_result_clean env imageFile base64Data :
  outcome (fileToBase64 env imageFile) = inr base64Data →
  truthy base64Data = true
  ∧ occurs ","%char base64Data = false
  ∧ ∃ header rest,
      readAsDataURL env imageFile
      = Loaded (header +:+ String ","%char (base64Data +:+ rest))
      ∧ occurs ","%char header = false
      ∧ (rest = "" ∨ ∃ rest', rest = String ","%char rest').
Proof.
  intros H. apply fileToBase64_inv in H as (result & Hread & Hseg & Ht).
  split; [exact Ht|]. rewrite Hread.
  destruct (split ","%char result) as [|header segs] eqn:Hsplit; [discriminate|].
  destruct segs as [|seg segs]; [discriminate|]. injection Hseg as ->.
  destruct (split_decompose _ _ _ _ Hsplit) as [Hh [[? _]|(body & -> & Hbody)]];
    [discriminate|].
  destruct (split_decompose _ _ _ _ Hbody) as [Hb Hrest].
  split; [exact Hb|]. exists header.
  destruct Hrest as [[_ ->]|(rest' & -> & _)].
  - exists "". rewrite append_empty_r. auto.
  - exists (String ","%char rest'). repeat split; eauto.
Qed.

Lemma fileToBase64_result_clean_witness :
  truthy "iVBORw0KGgo=" = true
  ∧ occurs ","%char "iVBORw0KGgo=" = false
  ∧ ∃ header rest,
      readAsDataURL first_answer dog_jpg
      = Loaded (header +:+ String ","%char ("iVBORw0KGgo=" +:+ rest))
      ∧ occurs ","%char header = false
      ∧ (rest = "" ∨ ∃ rest', rest = String ","%char rest').
Proof.
  apply (fileToBase64_result_clean first_answer dog_jpg "iVBORw0KGgo=").
  reflexivity.
Defined.

Lemma split_second sep header seg rest :
  occurs sep header = false →
  occurs sep seg = false →
  rest = "" ∨ (∃ rest', rest = String sep rest') →
  split sep (header +:+ String sep (seg +:+ rest)) !! 1%nat = Some seg.
Proof.
  intros Hh Hs Hrest. rewrite (split_at_first _ _ _ Hh).
  destruct Hrest as [->|[rest' ->]].
  - rewrite append_empty_r, (split_without _ _ Hs). reflexivity.
  - rewrite (split_at_first _ _ _ Hs). reflexivity.
Qed.

(** X2. Of a reader result [header,payload] with a comma-free header,
    [fileToBase64] resolves with the payload up to its first comma, provided
    that stretch is not empty: a payload that holds a comma is cut there. *)
Theorem fileToBase64_second_segment env imageFile header seg rest :
  readAsDataURL env imageFile = Loaded (header +:+ String ","%char (seg +:+ rest)) →
  occurs ","%char header = false →
  occurs ","%char seg = false →
  truthy seg = true →
  rest = "" ∨ (∃ rest', rest = String ","%char rest') →
  fileToBase64 env imageFile = ([EvReadAsDataURL imageFile], inr seg).
Proof.
  intros Hread Hh Hs Ht Hrest. rewrite fileToBase64_eta. f_equal.
  unfold fileToBase64, outcome; simpl.
  rewrite Hread, (split_second _ _ _ _ Hh Hs Hrest), Ht. reflexivity.
Qed.

Lemma fileToBase64_second_segment_witness :
  fileToBase64
    {| API_KEY := None;
       readAsDataURL := fun _ => Loaded "data:image/png;base64,iVBOR,w0KGgo=";
       generateContent := fun _ => Rejected ProgressEvent |}
    cat_png
  = ([EvReadAsDataURL cat_png], inr "iVBOR").
Proof.
  apply (fileToBase64_second_segment _ cat_png "data:image/png;base64" "iVBOR"
           ",w0KGgo=");
    try reflexivity.
  right. exists "w0KGgo=". reflexivity.
Defined.

(** X3. [fileToBase64] rejects in three ways. A reader error is passed on
    as the event it is, not as an [Error]; a reader result without comma
    (the bare "data:" of an empty file), and one with nothing between its
    first comma and the next, are rejected with the conversion message. *)
Theorem fileToBase64_rejections env imageFile :
  (readAsDataURL env imageFile = ReadFailed →
   outcome (fileToBase64 env imageFile) = inl ProgressEvent)
  ∧ (∀ result, readAsDataURL env imageFile = Loaded result →
       occurs ","%char result = false →
       outcome (fileToBase64 env imageFile)
       = inl (Error "Failed to convert file to base64. The file might be empty or corrupt."))
  ∧ (∀ header rest,
       readAsDataURL env imageFile = Loaded (header +:+ String ","%char rest) →
       occurs ","%char header = false →
       rest = "" ∨ (∃ rest', rest = String ","%char rest') →
       outcome (fileToBase64 env imageFile)
       = inl (Error "Failed to convert file to base64. The file might be empty or corrupt.")).
Proof.
  unfold fileToBase64, outcome; simpl. repeat split.
  - intros ->. reflexivity.
  - intros result -> Hclean. rewrite (split_without _ _ Hclean). reflexivity.
  - intros header rest -> Hh Hrest.
    change rest with ("" +:+ rest).
    rewrite (split_second _ header "" rest Hh eq_refl Hrest). reflexivity.
Qed.

Lemma fileToBase64_rejections_witness :
  outcome (fileToBase64 unreadable cat_png) = inl ProgressEvent
  ∧ outcome (fileToBase64 empty_file cat_png) = inl (Error msg_convert)
  ∧ outcome (fileToBase64
               {| API_KEY := None;
                  readAsDataURL := fun _ => Loaded "data:image/png;base64,";
                  generateContent := fun _ => Rejected ProgressEvent |} cat_png)
    = inl (Error msg_convert).
Proof.
  split; [|split].
  - apply (proj1 (fileToBase64_rejections unreadable cat_png)). reflexivity.
  - apply (proj1 (proj2 (fileToBase64_rejections empty_file cat_png)) "data:");
      reflexivity.
  - apply (proj2 (proj2 (fileToBase64_rejections _ cat_png))
             "data:image/png;base64" "");
      try reflexivity.
    left. reflexivity.
Defined.

(** *** What [editImageWithPrompt] does in every case *)

(** The function by cases: key, encoding, answer. *)
Lemma editImageWithPrompt_cases env imageFile p :
  editImageWithPrompt env imageFile p =
    if truthy_opt (API_KEY env) then
      match outcome (fileToBase64 env imageFile) with
      | inl e => ([EvReadAsDataURL imageFile], inl e)
      | inr base64Data =>
          let req := request base64Data imageFile p in
          match generateContent env req with
          | Fulfilled response =>
              match first_inline_data (response_parts response) with
              | Some d => ([EvReadAsDataURL imageFile; EvGenerateContent req], inr d)
              | None =>
                  ([EvReadAsDataURL imageFile; EvGenerateContent req;
                    EvConsoleError (Some "Error calling Gemini API:")
                      (Error msg_no_image)],
                   inl (Error msg_failed))
              end
          | Rejected reason =>
              ([EvReadAsDataURL imageFile; EvGenerateContent req;
                EvConsoleError (Some "Error calling Gemini API:") reason],
               inl (Error msg_failed))
          end
      end
    else ([], inl (Error msg_api_key)).
Proof.
  destruct (truthy_opt (API_KEY env)) eqn:Hk;
    [|by apply editImageWithPrompt_no_key].
  destruct (outcome (fileToBase64 env imageFile)) as [e|b] eqn:Hb.
  - by apply editImageWithPrompt_encoding_fails.
  - by apply editImageWithPrompt_invoked.
Qed.

(** X4. A backend call that fails in transport, whatever the reason, ends
    in the one generic failure; the reason goes to the console and nowhere
    else, and the request was made once. *)
Theorem transport_failure_is_translated env imageFile p base64Data reason :
  truthy_opt (API_KEY env) = true →
  outcome (fileToBase64 env imageFile) = inr base64Data →
  generateContent env (request base64Data imageFile p) = Rejected reason →
  editImageWithPrompt env imageFile p
  = ([EvReadAsDataURL imageFile;
      EvGenerateContent (request base64Data imageFile p);
      EvConsoleError (Some "Error calling Gemini API:") reason],
     inl (Error "Failed to generate image. Please check your prompt or try a different image.")).
Proof.
  intros Hk Hb Hrej. rewrite editImageWithPrompt_cases, Hk, Hb; simpl.
  rewrite Hrej. reflexivity.
Qed.

Lemma transport_failure_is_translated_witness :
  editImageWithPrompt unreachable_backend cat_png "Anime style"
  = ([EvReadAsDataURL cat_png;
      EvGenerateContent (request "iVBORw0KGgo=" cat_png "Anime style");
      EvConsoleError (Some "Error calling Gemini API:") (Error "503 Service Unavailable")],
     inl (Error msg_failed)).
Proof.
  apply (transport_failure_is_translated unreachable_backend cat_png "Anime style"
           "iVBORw0KGgo=" (Error "503 Service Unavailable"));
    reflexivity.
Defined.

Lemma client_rejects_with env imageFile p e :
  outcome (editImageWithPrompt env imageFile p) = inl e → client_rejection e.
Proof.
  intros H. rewrite editImageWithPrompt_cases in H. unfold client_rejection.
  destruct (truthy_opt (API_KEY env)); [|injection H as <-; auto].
  destruct (outcome (fileToBase64 env imageFile)) as [e'|b] eqn:Hb.
  - injection H as <-.
    apply fileToBase64_rejection in Hb as [-> | ->]; auto.
  - simpl in H.
    destruct (generateContent env _) as [response|reason];
      [destruct (first_inline_data _)|];
      try discriminate H; injection H as <-; auto 6.
Qed.

Lemma editImageWithPrompt_one_request env imageFile p :
  length (List.filter is_request (events (editImageWithPrompt env imageFile p))) ≤ 1.
Proof.
  rewrite editImageWithPrompt_cases.
  destruct (truthy_opt (API_KEY env)); simpl; [|lia].
  destruct (outcome (fileToBase64 env imageFile)) as [e|b]; simpl; [lia|].
  destruct (generateContent env _) as [response|reason];
    [destruct (first_inline_data _)|]; simpl; lia.
Qed.

(** X5. Whatever the platform does, [editImageWithPrompt] rejects only with
    the key message, the conversion message, the reader's event or the
    generic failure; the message about missing image data never leaves the
    function. *)
Theorem editImageWithPrompt_rejections env imageFile p e :
  outcome (editImageWithPrompt env imageFile p) = inl e →
  client_rejection e ∧ e ≠ Error msg_no_image.
Proof.
  intros H. apply client_rejects_with in H. split; [exact H|].
  destruct H as [-> | [-> | [-> | ->]]]; discriminate.
Qed.

(** X6. [editImageWithPrompt] resolves exactly when the key is set, the
    encoding succeeds, the backend answers, and the first candidate of the
    answer has a part with inline data; it resolves with the data of the
    first such part. *)
Theorem editImageWithPrompt_resolves env imageFile p d :
  outcome (editImageWithPrompt env imageFile p) = inr d
  ↔ truthy_opt (API_KEY env) = true
    ∧ ∃ base64Data response,
        outcome (fileToBase64 env imageFile) = inr base64Data
        ∧ generateContent env (request base64Data imageFile p) = Fulfilled response
        ∧ first_inline_data (response_parts response) = Some d.
Proof.
  rewrite editImageWithPrompt_cases. split.
  - intros H. destruct (truthy_opt (API_KEY env)); [|discriminate H].
    split; [reflexivity|].
    destruct (outcome (fileToBase64 env imageFile)) as [e'|b] eqn:Hb;
      [discriminate H|].
    simpl in H. exists b.
    destruct (generateContent env _) as [response|reason] eqn:Hg;
      [|discriminate H].
    exists response.
    destruct (first_inline_data _) as [d'|] eqn:Hd; [|discriminate H].
    injection H as <-. auto.
  - intros (-> & b & response & -> & Hg & Hd). simpl. rewrite Hg, Hd. reflexivity.
Qed.

Lemma editImageWithPrompt_resolves_witness :
  outcome (editImageWithPrompt webp_answer dog_jpg "Watercolor")
  = inr (Some "UklGRg==").
Proof.
  apply (editImageWithPrompt_resolves webp_answer dog_jpg "Watercolor"
           (Some "UklGRg==")).
  split; [reflexivity|].
  exists "iVBORw0KGgo=",
    (response_of [text_part "Here you are."; image_part "UklGRg==" "image/webp";
                  image_part "iVBORw==" "image/png"]).
  repeat split; reflexivity.
Defined.

Lemma editImageWithPrompt_rejections_witness :
  client_rejection (Error msg_failed) ∧ Error msg_failed ≠ Error msg_no_image.
Proof.
  apply (editImageWithPrompt_rejections (answering refusal) cat_png "Anime style").
  reflexivity.
Defined.

(** X7. One invocation reads the file at most once and calls the backend at
    most once, and never calls it without having read the file; without a
    key (unset, or the empty string) it does neither. *)
Theorem editImageWithPrompt_effects env imageFile p :
  let evs := events (editImageWithPrompt env imageFile p) in
  length (List.filter is_request evs) ≤ 1
  ∧ length (List.filter is_read evs) ≤ 1
  ∧ length (List.filter is_request evs) ≤ length (List.filter is_read evs)
  ∧ (head evs = None ∨ head evs = Some (EvReadAsDataURL imageFile))
  ∧ (evs = [] ↔ API_KEY env = None ∨ API_KEY env = Some "").
Proof.
  rewrite editImageWithPrompt_cases.
  destruct (API_KEY env) as [[|c k]|]; simpl.
  1, 3: repeat split; auto; lia.
  destruct (outcome (fileToBase64 env imageFile)) as [e|b]; simpl.
  - repeat split; auto; try lia; try discriminate.
    intros [H|H]; discriminate H.
  - destruct (generateContent env _) as [response|reason];
      [destruct (first_inline_data _)|]; simpl;
      repeat split; auto; try lia; try discriminate;
      intros [H|H]; discriminate H.
Qed.

(** X8. An answer without candidates, with an empty list of candidates, or
    whose first candidate has no content or no parts, is read as an answer
    without image: the generic failure, whatever the other candidates
    hold. *)
Theorem missing_parts_fail_like_no_image env imageFile p base64Data response :
  truthy_opt (API_KEY env) = true →
  outcome (fileToBase64 env imageFile) = inr base64Data →
  generateContent env (request base64Data imageFile p) = Fulfilled response →
  candidates response = None ∨ candidates response = Some []
  ∨ (∃ c rest, candidates response = Some (c :: rest)
               ∧ (content c = None ∨ content c = Some {| parts := None |}
                  ∨ content c = Some {| parts := Some [] |})) →
  outcome (editImageWithPrompt env imageFile p) = inl (Error msg_failed)
  ∧ last (events (editImageWithPrompt env imageFile p))
    = Some (EvConsoleError (Some "Error calling Gemini API:") (Error msg_no_image)).
Proof.
  intros Hk Hb Hg Hshape.
  assert (Hparts : response_parts response = []).
  { unfold response_parts.
    destruct Hshape as [-> | [-> | (c & rest & -> & [-> | [-> | ->]])]];
      reflexivity. }
  rewrite (no_image_part_generic_failure env imageFile p base64Data response);
    auto.
  rewrite Hparts. constructor.
Qed.

Lemma missing_parts_fail_like_no_image_witness :
  let env :=
    {| API_KEY := Some "secret";
       readAsDataURL := fun _ => Loaded "data:image/png;base64,iVBORw0KGgo=";
       generateContent := fun _ =>
         Fulfilled {| candidates :=
                        Some [ {| content := None |};
                               {| content :=
                                    Some {| parts := Some [image_part "iVBORw==" "image/png"] |} |} ] |} |} in
  outcome (editImageWithPrompt env cat_png "Anime style") = inl (Error msg_failed)
  ∧ last (events (editImageWithPrompt env cat_png "Anime style"))
    = Some (EvConsoleError (Some "Error calling Gemini API:") (Error msg_no_image)).
Proof.
  apply (missing_parts_fail_like_no_image _ cat_png "Anime style" "iVBORw0KGgo="
           {| candidates :=
                Some [ {| content := None |};
                       {| content :=
                            Some {| parts := Some [image_part "iVBORw==" "image/png"] |} |} ] |});
    try reflexivity.
  right. right. eexists _, _. split; [reflexivity|]. left. reflexivity.
Defined.

(** ** Further properties of the controller *)

Lemma or_else_truthy a b : truthy b = true → truthy (or_else a b) = true.
Proof.
  intros Hb. unfold or_else. destruct a as [s|]; [|exact Hb].
  destruct (truthy s) eqn:Hs; assumption.
Qed.

Lemma client_rejection_message e :
  client_rejection e → request_message (or_else (message e) msg_unknown).
Proof.
  unfold request_message.
  intros [-> | [-> | [-> | ->]]]; simpl; auto.
Qed.

Lemma request_message_truthy m : request_message m → truthy m = true.
Proof. intros [-> | [-> | [-> | ->]]]; reflexivity. Qed.

Lemma controller_message_truthy m : controller_message m → truthy m = true.
Proof. intros [-> | [-> | [-> | [-> | ->]]]]; reflexivity. Qed.

(** With an image selected and a prompt, [handleGenerate] puts the panel
    on the loader at once, before any answer: it clears error and result,
    starts exactly one call of the client for the selected file and the
    current prompt, and disables the Generate button. *)
Theorem handleGenerate_starts_loading env w imageFile :
  originalImageFile (app w) = Some imageFile →
  truthy (prompt (app w)) = true →
  let w' := handleGenerate env w in
  let call := editImageWithPrompt env imageFile (prompt (app w)) in
  output_panel (app w') = Loader
  ∧ error (app w') = None ∧ editedImageUrl (app w') = None
  ∧ generate_enabled (app w') = false
  ∧ pending w' = <[issued w := outcome call]> (pending w)
  ∧ issued w' = S (issued w)
  ∧ trace w' = trace w ++ events call
  ∧ originalImageFile (app w') = Some imageFile
  ∧ originalImageUrl (app w') = originalImageUrl (app w)
  ∧ prompt (app w') = prompt (app w)
  ∧ objectURLs w' = objectURLs w ∧ downloads w' = downloads w.
Proof.
  intros Hf Hp. unfold handleGenerate. rewrite Hf, Hp. simpl.
  repeat split; assumption.
Qed.

(** Between a Generate and the arrival of its outcome, selections, prompt
    edits and download attempts leave the call pending, the panel on the
    loader and both result cells empty. *)
Lemma waiting_preserved w id o mid :
  Forall (λ a, is_generate a = false ∧ is_settle a = false) mid →
  pending w !! id = Some o → isLoading (app w) = true →
  error (app w) = None → editedImageUrl (app w) = None →
  let w' := run_from w mid in
  pending w' = pending w ∧ isLoading (app w') = true
  ∧ error (app w') = None ∧ editedImageUrl (app w') = None
  ∧ trace w' = trace w.
Proof.
  intros Hmid. revert w. induction Hmid as [|a mid [Hg Hs] _ IH];
    intros w Hid Hl He Hd; simpl; [auto|].
  assert (Hstep : pending (step w a) = pending w
                  ∧ isLoading (app (step w a)) = true
                  ∧ error (app (step w a)) = None
                  ∧ editedImageUrl (app (step w a)) = None
                  ∧ trace (step w a) = trace w).
  { destruct a as [[f|]|value|env|id'|]; try discriminate; simpl; auto.
    unfold handleDownload, download_link. rewrite Hd. auto. }
  destruct Hstep as (Hp' & Hl' & He' & Hd' & Ht').
  rewrite <- Hp' in Hid.
  destruct (IH (step w a) Hid Hl' He' Hd') as (? & ? & ? & ? & ?).
  repeat split; congruence.
Qed.

(** X9. A request shows its own outcome: after a valid Generate, whatever
    selections, prompt edits and download attempts come before its promise
    settles, the panel then shows the returned image behind the PNG header,
    or the rejection's message (the fallback message for a rejection
    without one), and the loading flag is off. *)
Theorem generate_then_settle env w imageFile mid :
  originalImageFile (app w) = Some imageFile →
  truthy (prompt (app w)) = true →
  Forall (λ a, is_generate a = false ∧ is_settle a = false) mid →
  let w' := settle (issued w) (run_from (handleGenerate env w) mid) in
  output_panel (app w')
  = match outcome (editImageWithPrompt env imageFile (prompt (app w))) with
    | inr base64Data =>
        EditedPreview ("data:image/png;base64," +:+ template base64Data)
    | inl e => ErrorDisplay (or_else (message e) "An unknown error occurred.")
    end
  ∧ isLoading (app w') = false
  ∧ pending w' = delete (issued w) (pending w).
Proof.
  intros Hf Hp Hmid.
  destruct (handleGenerate_starts_loading env w imageFile Hf Hp)
    as (Hpanel & He & Hd & _ & Hpend & _).
  set (w1 := handleGenerate env w) in *.
  set (o := outcome (editImageWithPrompt env imageFile (prompt (app w)))) in *.
  assert (Hid : pending w1 !! issued w = Some o)
    by (rewrite Hpend; apply lookup_insert_eq).
  assert (Hl : isLoading (app w1) = true).
  { unfold output_panel in Hpanel. destruct (isLoading (app w1)); [reflexivity|].
    destruct (truthy_opt (error (app w1))); [discriminate|].
    destruct (truthy_opt (editedImageUrl (app w1))); discriminate. }
  destruct (waiting_preserved w1 (issued w) o mid Hmid Hid Hl He Hd)
    as (Hp2 & Hl2 & He2 & Hd2 & _).
  set (w2 := run_from w1 mid) in *. simpl.
  unfold settle. rewrite Hp2, Hid.
  split; [|split].
  - unfold output_panel. destruct o as [e|d]; simpl.
    + rewrite (or_else_truthy (message e) msg_unknown eq_refl). reflexivity.
    + rewrite He2. reflexivity.
  - destruct o; reflexivity.
  - rewrite Hpend, delete_insert_eq. destruct o; reflexivity.
Qed.

Lemma generate_then_settle_witness :
  let w := run [SelectImage (Some cat_png); SetPrompt "Anime style"] in
  output_panel
    (app (settle 0 (run_from (handleGenerate first_answer w)
                      [SetPrompt "Watercolor"; SelectImage (Some dog_jpg)])))
  = EditedPreview "data:image/png;base64,Rmlyc3Q=".
Proof.
  apply (generate_then_settle first_answer
           (run [SelectImage (Some cat_png); SetPrompt "Anime style"]) cat_png
           [SetPrompt "Watercolor"; SelectImage (Some dog_jpg)] eq_refl eq_refl).
  repeat constructor.
Defined.

(** X10. When the reader fails, the rejection is the reader's event, which
    has no message: the panel shows the fallback "An unknown error
    occurred.", and no request was made. *)
Theorem reader_failure_shows_unknown_error env w imageFile :
  originalImageFile (app w) = Some imageFile →
  truthy (prompt (app w)) = true →
  truthy_opt (API_KEY env) = true →
  readAsDataURL env imageFile = ReadFailed →
  let w' := settle (issued w) (handleGenerate env w) in
  output_panel (app w') = ErrorDisplay "An unknown error occurred."
  ∧ trace w' = trace w ++ [EvReadAsDataURL imageFile; EvConsoleError None ProgressEvent].
Proof.
  intros Hf Hp Hk Hread.
  assert (Hcall : editImageWithPrompt env imageFile (prompt (app w))
                  = ([EvReadAsDataURL imageFile], inl ProgressEvent)).
  { apply editImageWithPrompt_encoding_fails; [exact Hk|].
    unfold fileToBase64, outcome; simpl. rewrite Hread. reflexivity. }
  simpl. unfold settle, handleGenerate. rewrite Hf, Hp, Hcall; simpl.
  rewrite lookup_insert_eq; simpl. rewrite <- app_assoc.
  split; reflexivity.
Qed.

Lemma reader_failure_shows_unknown_error_witness :
  let w := run [SelectImage (Some cat_png); SetPrompt "Anime style"] in
  output_panel (app (settle 0 (handleGenerate unreadable w)))
  = ErrorDisplay "An unknown error occurred.".
Proof.
  apply (reader_failure_shows_unknown_error unreadable
           (run [SelectImage (Some cat_png); SetPrompt "Anime style"]) cat_png);
    reflexivity.
Defined.

(** X11. Without a key (unset, or the empty string) a valid Generate ends
    with the key message on the panel; the file is not read and no request
    is made: the only effect is the controller's own console entry. *)
Theorem missing_key_shows_configuration_message env w imageFile :
  originalImageFile (app w) = Some imageFile →
  truthy (prompt (app w)) = true →
  truthy_opt (API_KEY env) = false →
  let w' := settle (issued w) (handleGenerate env w) in
  output_panel (app w')
  = ErrorDisplay "API_KEY environment variable not set. Please ensure it's configured."
  ∧ trace w' = trace w ++ [EvConsoleError None (Error msg_api_key)].
Proof.
  intros Hf Hp Hk.
  pose proof (editImageWithPrompt_no_key env imageFile (prompt (app w)) Hk) as Hcall.
  simpl. unfold settle, handleGenerate. rewrite Hf, Hp, Hcall; simpl.
  rewrite lookup_insert_eq; simpl. rewrite app_nil_r.
  split; reflexivity.
Qed.

Lemma missing_key_shows_configuration_message_witness :
  let w := run [SelectImage (Some cat_png); SetPrompt "Anime style"] in
  output_panel (app (settle 0 (handleGenerate empty_key w)))
  = ErrorDisplay msg_api_key.
Proof.
  apply (missing_key_shows_configuration_message empty_key
           (run [SelectImage (Some cat_png); SetPrompt "Anime style"]) cat_png);
    reflexivity.
Defined.

(** *** What the error cell can hold *)

Lemma pending_rejections_step w a :
  (∀ id e, pending w !! id = Some (inl e) → client_rejection e) →
  ∀ id e, pending (step w a) !! id = Some (inl e) → client_rejection e.
Proof.
  intros Hw id e. destruct a as [[f|]|value|env|id'|]; simpl; try apply Hw.
  - handler_cases w; simpl; try apply Hw.
    intros H. apply lookup_insert_Some in H as [[_ H]|[_ H]]; [|by eapply Hw].
    by apply client_rejects_with in H.
  - unfold settle. destruct (pending w !! id') as [[e'|d]|]; simpl; try apply Hw;
      intros H; apply lookup_delete_Some in H as [_ H]; by eapply Hw.
  - unfold handleDownload. destruct (download_link (app w)); apply Hw.
Qed.

Lemma pending_rejections_run acts id e :
  pending (run acts) !! id = Some (inl e) → client_rejection e.
Proof.
  revert id e.
  apply (run_invariant
           (λ w, ∀ id e, pending w !! id = Some (inl e) → client_rejection e)).
  - intros id e H. unfold init in H; simpl in H.
    rewrite lookup_empty in H. discriminate H.
  - intros w a Hw. by apply pending_rejections_step.
Qed.

Lemma error_cell_controller_message acts m :
  error (app (run acts)) = Some m → controller_message m.
Proof.
  revert m.
  induction acts as [|a acts IH] using rev_ind; [discriminate|].
  rewrite run_snoc. pose proof (pending_rejections_run acts) as Hpend.
  set (w := run acts) in *. unfold controller_message.
  destruct a as [[f|]|value|env|id|]; simpl; try apply IH; try discriminate.
  - handler_cases w; simpl; try discriminate; intros m [= <-]; auto.
  - unfold settle. destruct (pending w !! id) as [[e|d]|] eqn:Hid; simpl;
      try apply IH.
    intros m [= <-].
    destruct (client_rejection_message e) as [-> | [-> | [-> | ->]]];
      [by eapply Hpend | auto 6..].
  - unfold handleDownload. destruct (download_link (app w)); apply IH.
Qed.

(** X12. After every sequence of handler invocations and settled promises,
    the error cell is empty or holds one of five messages: the guidance, the
    key message, the conversion message, the fallback or the generic
    failure. It is never the empty string and never the message about
    missing image data. *)
Theorem error_cell_messages acts m :
  error (app (run acts)) = Some m →
  controller_message m ∧ truthy m = true ∧ m ≠ msg_no_image.
Proof.
  intros H. apply error_cell_controller_message in H as Hm.
  split; [exact Hm|]. split; [by apply controller_message_truthy|].
  destruct Hm as [-> | [-> | [-> | [-> | ->]]]]; discriminate.
Qed.

Lemma error_cell_messages_witness :
  controller_message msg_failed ∧ truthy msg_failed = true
  ∧ msg_failed ≠ msg_no_image.
Proof.
  apply (error_cell_messages
           [SelectImage (Some cat_png); SetPrompt "Anime style";
            Generate (answering refusal); Settle 0]).
  reflexivity.
Defined.

(** X13. Through the page the guard of [handleGenerate] never fires, since
    the button is disabled where it would: after every run through the page
    the error cell is empty or holds a message of a settled request, never
    the guidance. *)
Theorem guidance_never_shown_through_page acts m :
  ui acts = true →
  error (app (run acts)) = Some m →
  request_message m ∧ m ≠ msg_guidance.
Proof.
  intros Hui H.
  assert (Hm : request_message m).
  { revert m H.
    apply (ui_invariant
             (λ w, (∀ id e, pending w !! id = Some (inl e) → client_rejection e)
                   ∧ (∀ m, error (app w) = Some m → request_message m)));
      [| |exact Hui].
    - split; [|discriminate].
      intros id e He. unfold init in He; simpl in He.
      rewrite lookup_empty in He. discriminate He.
    - intros w a [Hpend Herr] Hen.
      split; [by apply pending_rejections_step|].
      destruct a as [[f|]|value|env|id|]; simpl in *; try apply Herr;
        try discriminate.
      + apply generate_enabled_true in Hen as (_ & [f Hf] & Hp).
        unfold handleGenerate. rewrite Hf, Hp. discriminate.
      + unfold settle. destruct (pending w !! id) as [[e|d]|] eqn:Hid; simpl;
          try apply Herr.
        intros m' [= <-]. by eapply client_rejection_message, Hpend.
      + unfold handleDownload. destruct (download_link (app w)); apply Herr. }
  split; [exact Hm|].
  destruct Hm as [-> | [-> | [-> | ->]]]; discriminate.
Qed.

Lemma guidance_never_shown_through_page_witness :
  request_message msg_failed ∧ msg_failed ≠ msg_guidance.
Proof.
  apply (guidance_never_shown_through_page
           [SelectImage (Some cat_png); SetPrompt "Anime style";
            Generate unreachable_backend; Settle 0]);
    reflexivity.
Defined.

(** X14. In every state the program reaches, a cell that is set holds a
    non-empty string, so the panel's tests on [error] and [editedImageUrl]
    come down to whether the cell is set: loader while loading, else the
    error if there is one, else the result if there is one, else the
    placeholder. *)
Theorem panel_by_presence acts :
  let s := app (run acts) in
  output_panel s
  = if isLoading s then Loader
    else match error s, editedImageUrl s with
         | Some m, _ => ErrorDisplay m
         | None, Some url => EditedPreview url
         | None, None => OutputPlaceholder
         end.
Proof.
  intros s. unfold output_panel.
  destruct (isLoading s); [reflexivity|].
  pose proof (error_cell_controller_message acts) as Herr. fold s in Herr.
  pose proof (png_labelled_run acts) as Hpng. fold s in Hpng.
  unfold png_labelled in Hpng.
  destruct (error s) as [m|]; simpl.
  - rewrite (controller_message_truthy m (Herr m eq_refl)). reflexivity.
  - destruct (editedImageUrl s) as [url|]; [|reflexivity].
    destruct Hpng as [d ->]. reflexivity.
Qed.

(** *** Downloads *)

(** X15. [handleDownload] touches nothing but the list of exports, and
    exports nothing while the result cell is empty; every file ever exported
    is a PNG data URL under the name "gemini-styled-image.png". *)
Theorem downloads_are_png acts :
  let w := run acts in
  Forall (λ link, download link = "gemini-styled-image.png"
                  ∧ ∃ base64Data, href link = "data:image/png;base64," +:+ base64Data)
         (downloads w)
  ∧ app (handleDownload w) = app w
  ∧ objectURLs (handleDownload w) = objectURLs w
  ∧ pending (handleDownload w) = pending w
  ∧ trace (handleDownload w) = trace w
  ∧ (editedImageUrl (app w) = None → handleDownload w = w).
Proof.
  intros w. split.
  - unfold w. clear w. induction acts as [|a acts IH] using rev_ind;
      [constructor|].
    rewrite run_snoc. pose proof (png_labelled_run acts) as Hpng.
    set (w := run acts) in *.
    destruct a as [[f|]|value|env|id|]; simpl; try exact IH.
    + unfold handleGenerate. destruct (originalImageFile (app w)); [|exact IH].
      destruct (truthy (prompt (app w))); exact IH.
    + unfold settle. destruct (pending w !! id) as [[e|d]|]; exact IH.
    + unfold handleDownload, download_link. unfold png_labelled in Hpng.
      destruct (editedImageUrl (app w)) as [url|]; [|exact IH].
      destruct (truthy url); [|exact IH]. simpl.
      apply Forall_app_2; [exact IH|]. constructor; [|constructor].
      split; [reflexivity | exact Hpng].
  - unfold handleDownload, download_link.
    destruct (editedImageUrl (app w)) as [url|]; [|repeat split; reflexivity].
    destruct (truthy url); repeat split; try reflexivity; discriminate.
Qed.

Lemma editImageWithPrompt_effects_witness :
  events (editImageWithPrompt empty_key cat_png "Anime style") = [].
Proof.
  apply (proj2 (proj2 (proj2 (proj2
           (editImageWithPrompt_effects empty_key cat_png "Anime style"))))).
  right. reflexivity.
Defined.

Lemma downloads_are_png_witness :
  handleDownload (run [SelectImage (Some cat_png); Download])
  = run [SelectImage (Some cat_png); Download].
Proof.
  apply (downloads_are_png [SelectImage (Some cat_png); Download]).
  reflexivity.
Defined.

(** *** The left panel *)

(** X16. The left panel shows the upload placeholder exactly until the first
    file is selected; from then on it shows a preview, whose URL is
    registered for the file currently selected, and no handler ever clears
    the selection. *)
Theorem input_panel_follows_selection acts :
  let w := run acts in
  (input_panel (app w) = ImagePlaceholder ↔ List.filter is_selection acts = [])
  ∧ (input_panel (app w) = ImagePlaceholder ↔ originalImageFile (app w) = None)
  ∧ (∀ url, input_panel (app w) = ImagePreview url →
       ∃ f, originalImageFile (app w) = Some f ∧ objectURLs w !! url = Some f)
  ∧ (∀ a, is_Some (originalImageFile (app w)) →
       is_Some (originalImageFile (app (step w a)))).
Proof.
  intros w. pose proof (preview_registered_run acts) as Hreg.
  fold w in Hreg. unfold preview_registered in Hreg. unfold input_panel.
  split; [|split; [|split]].
  - unfold w. clear. induction acts as [|a acts IH] using rev_ind;
      [split; reflexivity|].
    rewrite run_snoc, List.filter_app.
    destruct (step_preview (run acts) a) as [_ Hu]. rewrite Hu.
    destruct a as [[f|]|value|env|id|]; simpl; rewrite ?app_nil_r; try exact IH.
    split; [discriminate|]. intros H. by apply app_nil in H as [_ H].
  - destruct (originalImageUrl (app w)) as [url|].
    + destruct Hreg as (f & -> & _). split; discriminate.
    + split; [intros _; exact Hreg | reflexivity].
  - intros url H. destruct (originalImageUrl (app w)) as [url'|]; [|discriminate].
    injection H as ->. exact Hreg.
  - intros a. destruct (step_preview w a) as [Hf _]. rewrite Hf.
    destruct a as [[f|]|value|env|id|]; eauto.
Qed.

Lemma input_panel_follows_selection_witness :
  let w := run [SetPrompt "Anime style"; SelectImage (Some cat_png);
                SelectImage None] in
  ∃ f, originalImageFile (app w) = Some f ∧ objectURLs w !! 0 = Some f.
Proof.
  apply (input_panel_follows_selection
           [SetPrompt "Anime style"; SelectImage (Some cat_png); SelectImage None]).
  reflexivity.
Defined.

(** *** Requests and the loading flag *)

Lemma step_trace_requests w a :
  length (List.filter is_request (trace (step w a)))
  ≤ length (List.filter is_request (trace w)) + (issued (step w a) - issued w)
  ∧ issued w ≤ issued (step w a)
  ∧ issued (step w a) ≤ issued w + (if is_generate a then 1 else 0).
Proof.
  destruct a as [[f|]|value|env|id|]; simpl; try lia.
  - unfold handleGenerate. destruct (originalImageFile (app w)) as [f|];
      [|simpl; lia].
    destruct (truthy (prompt (app w))); simpl; [|lia].
    rewrite List.filter_app, length_app.
    pose proof (editImageWithPrompt_one_request env f (prompt (app w))) as H.
    lia.
  - unfold settle. destruct (pending w !! id) as [[e|d]|]; simpl; try lia.
    rewrite List.filter_app, length_app. simpl. lia.
  - unfold handleDownload. destruct (download_link (app w)); simpl; lia.
Qed.

(** X17. The controller reaches the backend through valid Generates only:
    after every run the requests made are at most as many as the calls of
    the client begun, and these at most as many as the Generates invoked. *)
Theorem requests_bounded_by_generates acts :
  let w := run acts in
  length (List.filter is_request (trace w)) ≤ issued w
  ∧ issued w ≤ length (List.filter is_generate acts).
Proof.
  induction acts as [|a acts IH] using rev_ind; [simpl; lia|].
  simpl in *. rewrite run_snoc, List.filter_app, length_app.
  pose proof (step_trace_requests (run acts) a) as (H1 & H2 & H3).
  destruct a; simpl in *; lia.
Qed.

(** X18. Through the page a settled request always ends in Succeeded or
    Failed showing its own outcome: the loading flag goes off, nothing stays
    pending, and the panel shows the returned image, or the rejection's
    message. *)
Theorem settle_through_page acts id o :
  ui acts = true →
  pending (run acts) !! id = Some o →
  let w' := settle id (run acts) in
  isLoading (app w') = false
  ∧ pending w' = ∅
  ∧ output_panel (app w')
    = match o with
      | inr base64Data =>
          EditedPreview ("data:image/png;base64," +:+ template base64Data)
      | inl e => ErrorDisplay (or_else (message e) "An unknown error occurred.")
      end
  ∧ (lifecycle (app w') = Succeeded ∨ lifecycle (app w') = Failed).
Proof.
  intros Hui Hid. destruct (single_flight_ui acts Hui) as [Hflight _].
  set (w := run acts) in *. simpl.
  destruct (isLoading (app w)) eqn:Hl;
    [|rewrite Hflight, lookup_empty in Hid; discriminate Hid].
  destruct Hflight as (He & Hd & k & o' & _ & Hp).
  unfold settle, lifecycle, output_panel. rewrite Hid.
  rewrite Hp in Hid. apply lookup_singleton_Some in Hid as [<- <-].
  rewrite Hp, delete_singleton_eq.
  destruct o' as [e|d]; simpl.
  - rewrite (or_else_truthy (message e) msg_unknown eq_refl). auto.
  - rewrite He. simpl. auto.
Qed.

Lemma settle_through_page_witness :
  let acts := [SelectImage (Some cat_png); SetPrompt "Anime style";
               Generate unreachable_backend; SelectImage (Some dog_jpg)] in
  output_panel (app (settle 0 (run acts)))
  = ErrorDisplay "Failed to generate image. Please check your prompt or try a different image.".
Proof.
  apply (settle_through_page
           [SelectImage (Some cat_png); SetPrompt "Anime style";
            Generate unreachable_backend; SelectImage (Some dog_jpg)]
           0 (inl (Error msg_failed)));
    reflexivity.
Defined.

(** X19. Only the selection of a file brings the panel back to Idle: a
    handler that leaves the panel Idle either found it Idle or is
    [handleImageUpload] with a file. *)
Theorem idle_only_by_selection w a :
  lifecycle (app (step w a)) = Idle →
  lifecycle (app w) = Idle ∨ ∃ f, a = SelectImage (Some f).
Proof.
  destruct a as [[f|]|value|env|id|]; simpl; eauto.
  - unfold handleGenerate.
    destruct (originalImageFile (app w)); [destruct (truthy (prompt (app w)))|];
      auto; unfold lifecycle, output_panel; simpl;
      destruct (isLoading (app w)); discriminate.
  - unfold settle. destruct (pending w !! id) as [[e|d]|]; auto;
      unfold lifecycle, output_panel; simpl.
    + rewrite (or_else_truthy (message e) msg_unknown eq_refl). discriminate.
    + destruct (truthy_opt (error (app w))); discriminate.
  - unfold handleDownload. destruct (download_link (app w)); auto.
Qed.

Lemma idle_only_by_selection_witness :
  let w := run [SelectImage (Some cat_png); SetPrompt "Anime style";
                Generate first_answer; Settle 0] in
  lifecycle (app w) = Succeeded
  ∧ (lifecycle (app w) = Idle ∨ ∃ f, SelectImage (Some dog_jpg) = SelectImage (Some f)).
Proof.
  split; [reflexivity|].
  apply (idle_only_by_selection
           (run [SelectImage (Some cat_png); SetPrompt "Anime style";
                 Generate first_answer; Settle 0])
           (SelectImage (Some dog_jpg))).
  reflexivity.
Defined.

(** X20. The loading flag is raised by a valid Generate only and lowered by
    a settling promise only: there is no timeout and no cancellation, so
    while no promise settles a loading controller stays on the loader with
    the Generate button disabled, whatever else is done. *)
Theorem loading_until_settled w acts :
  isLoading (app w) = true →
  Forall (λ a, is_settle a = false) acts →
  let w' := run_from w acts in
  isLoading (app w') = true
  ∧ output_panel (app w') = Loader
  ∧ generate_enabled (app w') = false.
Proof.
  intros Hl Hacts. simpl.
  assert (H : isLoading (app (run_from w acts)) = true).
  { revert w Hl. induction Hacts as [|a acts Ha _ IH]; intros w Hl; [exact Hl|].
    simpl. apply IH.
    destruct a as [[f|]|value|env|id|]; try discriminate; simpl; try exact Hl.
    - unfold handleGenerate. destruct (originalImageFile (app w)); [|exact Hl].
      destruct (truthy (prompt (app w))); [reflexivity | exact Hl].
    - unfold handleDownload. destruct (download_link (app w)); exact Hl. }
  unfold output_panel, generate_enabled. rewrite H. auto.
Qed.

Lemma loading_until_settled_witness :
  let w := run [SelectImage (Some cat_png); SetPrompt "Anime style";
                Generate first_answer] in
  output_panel (app (run_from w [SetPrompt ""; SelectImage (Some dog_jpg);
                                 Generate second_answer; Download]))
  = Loader.
Proof.
  apply (loading_until_settled
           (run [SelectImage (Some cat_png); SetPrompt "Anime style";
                 Generate first_answer])
           [SetPrompt ""; SelectImage (Some dog_jpg); Generate second_answer;
            Download]);
    [reflexivity | repeat constructor].
Defined.

(** X21. The loading flag changes only where a request starts or ends: a
    handler that raises it is a Generate, one that lowers it is a settling
    promise. *)
Theorem loading_flag_changes w a :
  (isLoading (app w) = false → isLoading (app (step w a)) = true →
   ∃ env, a = Generate env)
  ∧ (isLoading (app w) = true → isLoading (app (step w a)) = false →
     ∃ id, a = Settle id ∧ is_Some (pending w !! id)).
Proof.
  assert (Hsettle : ∀ id, isLoading (app (settle id w)) ≠ isLoading (app w) →
                          isLoading (app (settle id w)) = false
                          ∧ is_Some (pending w !! id)).
  { intros id. unfold settle.
    destruct (pending w !! id) as [[e|d]|]; simpl; eauto; congruence. }
  assert (Hgen : ∀ env, isLoading (app (handleGenerate env w)) ≠ isLoading (app w) →
                        isLoading (app (handleGenerate env w)) = true).
  { intros env. unfold handleGenerate.
    destruct (originalImageFile (app w)); [destruct (truthy (prompt (app w)))|];
      simpl; congruence. }
  assert (Hdl : isLoading (app (handleDownload w)) = isLoading (app w)).
  { unfold handleDownload. destruct (download_link (app w)); reflexivity. }
  destruct a as [[f|]|value|env|id|]; simpl; split; intros H1 H2;
    try congruence; eauto.
  - rewrite Hgen in H2; congruence.
  - destruct (Hsettle id) as [H _]; congruence.
  - destruct (Hsettle id) as [_ H]; [congruence | eauto].
Qed.

Lemma loading_flag_changes_witness :
  let w := run [SelectImage (Some cat_png); SetPrompt "Anime style";
                Generate first_answer] in
  ∃ id, Settle 0 = Settle id ∧ is_Some (pending w !! id).
Proof.
  apply (proj2 (loading_flag_changes
                  (run [SelectImage (Some cat_png); SetPrompt "Anime style";
                        Generate first_answer])
                  (Settle 0)));
    reflexivity.
Defined.

(** ** The round trip of the returned image *)



